(** * SerialMultiplexer: the channel multiplexing engine of serial-mux.cpp

    A shallow embedding of [main]'s start-up, [readThread] (ingress) and
    [writeThread] (egress).  The operating system is explicit: a [World]
    carries the registry [sVirtualPorts], the flag [terminateProcess], what
    the descriptors will answer to the next system calls, and the trace of
    every system call and every printed line made so far. *)

From stdpp Require Import gmap list strings.
From Stdlib Require Import ZArith Lia Sorted Ascii.

Local Open Scope Z_scope.

(** ** Constants (serial-mux.cpp, lines 66-69) *)

Definition cMaxNameSize : Z := 256.
Definition cMaxBufSize : Z := 1024.
Definition cMaxDataSize : Z := 1000.
Definition cMaxChannelId : Z := 255.

Definition EXIT_SUCCESS : Z := 0.
Definition EXIT_FAILURE : Z := 1.

(** ** The channel record and the registry *)

Record ptyChan := mkPtyChan {
  channelId : Z;      (* uint8_t: user-specified channel ID *)
  pty : Z;            (* int: pseudo-tty file descriptor *)
  linkPath : string;  (* user-specified symlink, blank if none *)
  ptyName : string    (* device name assigned by the OS *)
}.

(** What [std::map::operator[]] stores for a missing key: a value-initialised
    [ptyChan], all scalar members zero and both strings empty. *)
Definition ptyChan_zero : ptyChan := mkPtyChan 0 0 "" "".

Module StdMap.

(** [std::map<uint8_t, ptyChan>]: the entries in the order a range-for
    visits them, which for [std::map] is ascending key order. *)
Definition t : Type := list (Z * ptyChan).

Definition empty : t := [].

Definition size (m : t) : Z := Z.of_nat (length m).

Definition keys (m : t) : list Z := m.*1.

(** Key search, guided by the comparison as in the tree. *)
Fixpoint find (k : Z) (m : t) : option ptyChan :=
  match m with
  | [] => None
  | (k', v') :: m' =>
      if k <? k' then None
      else if k =? k' then Some v'
      else find k m'
  end.

(** [emplace]: inserts at the key's place; an existing key keeps its
    entry and the new value is dropped. *)
Fixpoint emplace (k : Z) (v : ptyChan) (m : t) : t :=
  match m with
  | [] => [(k, v)]
  | (k', v') :: m' =>
      if k <? k' then (k, v) :: m
      else if k =? k' then m
      else (k', v') :: emplace k v m'
  end.

(** [operator[]]: the entry of [k]; a missing key is first inserted with
    a value-initialised entry. *)
Definition index (k : Z) (m : t) : ptyChan * t :=
  match find k m with
  | Some v => (v, m)
  | None => (ptyChan_zero, emplace k ptyChan_zero m)
  end.

Definition ascending (m : t) : Prop := StronglySorted Z.lt (keys m).

End StdMap.

(** ** The world: process state, descriptors, and the trace *)

(** Lines printed by the two threads. *)
Inductive line : Type :=
| ReadStart                       (* "START: readThread()" *)
| ReadEnd                         (* "END: readThread()" *)
| ReadCid (cid : Z)               (* "readThread cid=" *)
| ReadNbytes (nbytes : Z)         (* "readThread nbytes=" *)
| ReadRead (n : Z)                (* "readThread read n bytes" *)
| ReadWrote (n : Z)               (* "readThread wrote n bytes" *)
| WriteStart                      (* "START: writeThread()" *)
| WriteEnd                        (* "END: writeThread()" *)
| WriteFailed (nbytes tmp : Z).   (* "ERROR: Write failed. Tried to send ..." *)

Inductive event : Type :=
| PhysRead (r : option Z)                     (* read(phys_tty, &x, 1) *)
| PhysWrite (buf : list Z) (ret : Z)          (* write(phys_tty, buf, len) *)
| PtyRead (fd : Z) (ret : Z) (data : list Z)  (* read(chan.pty, buf, count) *)
| PtyWrite (fd : Z) (b : Z)                   (* write(chan->pty, &tmp, 1) *)
| Cout (l : line)
| Cerr (l : line)
| Sleep.                                      (* sleep_for(1 ms) *)

Record World := mkWorld {
  sVirtualPorts : StdMap.t;
  terminateProcess : bool;
  (* what the next one-byte reads of phys_tty return: a byte, or nothing
     (the port is O_NONBLOCK with VMIN = VTIME = 0) *)
  phys_in : list (option Z);
  (* how many bytes the next writes to phys_tty accept (negative: error);
     once the list is used up every write is accepted in full *)
  phys_room : list Z;
  (* bytes waiting to be read on each descriptor that has a live other
     end; a descriptor the map does not hold is at end of file *)
  pty_in : gmap Z (list Z);
  trace : list event
}.

Definition emit (e : event) (w : World) : World :=
  mkWorld (sVirtualPorts w) (terminateProcess w) (phys_in w) (phys_room w)
          (pty_in w) (trace w ++ [e]).

Definition set_ports (m : StdMap.t) (w : World) : World :=
  mkWorld m (terminateProcess w) (phys_in w) (phys_room w) (pty_in w) (trace w).

Definition set_phys_in (s : list (option Z)) (w : World) : World :=
  mkWorld (sVirtualPorts w) (terminateProcess w) s (phys_room w) (pty_in w)
          (trace w).

Definition set_phys_room (s : list Z) (w : World) : World :=
  mkWorld (sVirtualPorts w) (terminateProcess w) (phys_in w) s (pty_in w)
          (trace w).

Definition set_pty_in (q : gmap Z (list Z)) (w : World) : World :=
  mkWorld (sVirtualPorts w) (terminateProcess w) (phys_in w) (phys_room w) q
          (trace w).

(** *** System calls *)

(** [n = read(phys_tty, &var, 1)]: returns the count and the content of
    [var] afterwards; an empty read returns 0 and leaves [var] alone. *)
Definition read_phys (var : Z) (w : World) : Z * Z * World :=
  let r := default None (head (phys_in w)) in
  let w := emit (PhysRead r) (set_phys_in (tail (phys_in w)) w) in
  match r with
  | Some b => (1, b, w)
  | None => (0, var, w)
  end.

(** The count the [i]-th coming write reports for a buffer of [len] bytes:
    never more than asked, -1 on error. *)
Definition accepted (room : list Z) (i : nat) (len : Z) : Z :=
  match room !! i with
  | None => len
  | Some a => if a <? 0 then -1 else Z.min a len
  end.

(** [write(phys_tty, buf, len)]. *)
Definition write_phys (buf : list Z) (w : World) : Z * World :=
  let r := accepted (phys_room w) 0 (Z.of_nat (length buf)) in
  (r, emit (PhysWrite buf r) (set_phys_room (tail (phys_room w)) w)).

(** What [read] returns when it has no byte to hand over: 0 at end of
    file, -1 (EAGAIN) on a non-blocking descriptor with nothing waiting. *)
Definition idle_result (qs : gmap Z (list Z)) (fd : Z) : Z :=
  match qs !! fd with
  | None => 0
  | Some _ => -1
  end.

(** [read(fd, buf, count)] on a non-blocking descriptor: up to [count]
    waiting bytes overwrite the front of [buf]; with no byte to hand over
    the call returns 0 or -1 and [buf] is untouched. *)
Definition read_pty (fd count : Z) (buf : list Z) (w : World)
  : Z * list Z * World :=
  let q := default [] (pty_in w !! fd) in
  match q with
  | [] =>
      let r := idle_result (pty_in w) fd in
      (r, buf, emit (PtyRead fd r []) w)
  | _ :: _ =>
      let k := Nat.min (Z.to_nat count) (length q) in
      let data := take k q in
      (Z.of_nat k, data ++ drop k buf,
       emit (PtyRead fd (Z.of_nat k) data)
            (set_pty_in (<[fd := drop k q]> (pty_in w)) w))
  end.

(** [write(fd, &tmp, 1)]: the result is ignored by the caller; the trace
    records the byte handed to the descriptor. *)
Definition write_pty (fd b : Z) (w : World) : World := emit (PtyWrite fd b) w.

(** ** readThread (serial-mux.cpp, lines 402-442) *)

(** Lines 432-439: [while (!terminateProcess && nbytes)]. *)
Fixpoint forward_payload (nbytes : nat) (fd tmp : Z) (w : World) : Z * World :=
  match nbytes with
  | O => (tmp, w)
  | S nbytes' =>
      if terminateProcess w then (tmp, w)
      else
        let '(n, tmp, w) := read_phys tmp w in
        let w := emit (Cout (ReadRead n)) w in
        let w := write_pty fd tmp w in
        let w := emit (Cout (ReadWrote n)) w in
        forward_payload nbytes' fd tmp w
  end.

(** Lines 413-427: the channel id, then the length, most significant byte
    first.  [None] is the [continue] of line 417. *)
Definition read_header (tmp : Z) (w : World) : option (Z * Z * Z) * World :=
  let '(n, cid, w) := read_phys 0 w in
  if negb (n =? 1) then (None, emit Sleep w)
  else
    let w := emit (Cout (ReadCid cid)) w in
    let '(n, tmp, w) := read_phys tmp w in
    let nbytes := (Z.shiftl (Z.land tmp 255) 8) mod 65536 in
    let '(n, tmp, w) := read_phys tmp w in
    let nbytes := (nbytes + Z.land tmp 255) mod 65536 in
    let w := emit (Cout (ReadNbytes nbytes)) w in
    (Some (cid, nbytes, tmp), w).

(** One turn of the outer [while]; [tmp] is what the uninitialised local
    holds on entry. *)
Definition readThread_body (tmp : Z) (w : World) : Z * World :=
  match read_header tmp w with
  | (None, w) => (tmp, w)
  | (Some (cid, nbytes, tmp), w) =>
      let '(chan, m) := StdMap.index cid (sVirtualPorts w) in
      let w := set_ports m w in
      forward_payload (Z.to_nat nbytes) (pty chan) tmp w
  end.

(** [turns] bounds how many times the outer loop is entered. *)
Fixpoint readThread_loop (turns : nat) (tmp : Z) (w : World) : World :=
  match turns with
  | O => w
  | S turns' =>
      if terminateProcess w then emit (Cout ReadEnd) w
      else let '(tmp, w) := readThread_body tmp w in
           readThread_loop turns' tmp w
  end.

Definition readThread (turns : nat) (tmp : Z) (w : World) : World :=
  readThread_loop turns tmp (emit (Cout ReadStart) w).

(** ** writeThread (serial-mux.cpp, lines 447-493) *)

(** Lines 471-483: the frame goes out in four writes; only the count of the
    last one is looked at. *)
Definition send_frame (cid nbytes : Z) (buf : list Z) (w : World) : World :=
  let '(tmp, w) := write_phys [cid] w in
  let c := Z.land (Z.shiftr nbytes 8) 255 in
  let '(tmp, w) := write_phys [c] w in
  let c := Z.land nbytes 255 in
  let '(tmp, w) := write_phys [c] w in
  let '(tmp, w) := write_phys (take (Z.to_nat nbytes) buf) w in
  if tmp =? nbytes then w else emit (Cerr (WriteFailed nbytes tmp)) w.

(** Lines 461-489, the body of the range-for for one entry.  The boolean
    is the [break] of line 488; [buf] is the thread's data buffer. *)
Definition writeThread_step (entry : Z * ptyChan) (buf : list Z) (w : World)
  : bool * list Z * World :=
  let '(cid, chan) := entry in
  let '(tmp, buf, w) := read_pty (pty chan) cMaxDataSize buf w in
  if tmp <? 1 then (false, buf, emit Sleep w)
  else
    let nbytes := tmp mod 65536 in
    let w := send_frame cid nbytes buf w in
    (terminateProcess w, buf, w).

(** Line 459: [for (auto& [cid, chan] : sVirtualPorts)]. *)
Fixpoint writeThread_for (m : StdMap.t) (buf : list Z) (w : World)
  : list Z * World :=
  match m with
  | [] => (buf, w)
  | entry :: m' =>
      let '(brk, buf, w) := writeThread_step entry buf w in
      if brk then (buf, w) else writeThread_for m' buf w
  end.

(** One polling pass over the registry. *)
Definition writeThread_pass (buf : list Z) (w : World) : list Z * World :=
  writeThread_for (sVirtualPorts w) buf w.

Fixpoint writeThread_loop (passes : nat) (buf : list Z) (w : World) : World :=
  match passes with
  | O => w
  | S passes' =>
      if terminateProcess w then emit (Cout WriteEnd) w
      else let '(buf, w) := writeThread_pass buf w in
           writeThread_loop passes' buf w
  end.

Definition writeThread (passes : nat) (buf : list Z) (w : World) : World :=
  writeThread_loop passes buf (emit (Cout WriteStart) w).

(** ** main, up to the start of the two threads (lines 162-268) *)

(** The C library's [atoi] is [(int) strtol(nptr, NULL, 10)]: leading white
    space, an optional sign, then decimal digits up to the first other
    character; [strtol] clamps the value to the range of [long] (64 bits)
    and the conversion to [int] keeps its low 32 bits. *)
Definition isspace (c : ascii) : bool :=
  let n := nat_of_ascii c in
  (n =? 32)%nat || ((9 <=? n)%nat && (n <=? 13)%nat).

Definition digit_of (c : ascii) : option Z :=
  let n := Z.of_nat (nat_of_ascii c) in
  if (48 <=? n) && (n <=? 57) then Some (n - 48) else None.

Fixpoint atoi_digits (acc : Z) (s : string) : Z :=
  match s with
  | EmptyString => acc
  | String c s' =>
      match digit_of c with
      | Some d => atoi_digits (10 * acc + d) s'
      | None => acc
      end
  end.

Fixpoint skip_spaces (s : string) : string :=
  match s with
  | EmptyString => s
  | String c s' => if isspace c then skip_spaces s' else s
  end.

Definition LONG_MAX : Z := 9223372036854775807.
Definition LONG_MIN : Z := -9223372036854775808.

(** [strtol(s, NULL, 10)]. *)
Definition strtol (s : string) : Z :=
  let v := match skip_spaces s with
           | String "-" s' => - atoi_digits 0 s'
           | String "+" s' => atoi_digits 0 s'
           | s' => atoi_digits 0 s'
           end in
  Z.max LONG_MIN (Z.min LONG_MAX v).

(** The conversion [(int) z] of a [long]: two's complement, 32 bits. *)
Definition to_int (z : Z) : Z := (z + 2147483648) mod 4294967296 - 2147483648.

Definition atoi (s : string) : Z := to_int (strtol s).

(** [strchr(optarg, ':')], returning what follows the colon. *)
Fixpoint after_colon (s : string) : option string :=
  match s with
  | EmptyString => None
  | String c s' => if Ascii.eqb c ":" then Some s' else after_colon s'
  end.

(** What [getopt(argc, argv, "c:h")] hands to the [switch]. *)
Inductive getopt_result : Type :=
| Opt_c (optarg : string)
| Opt_h
| Opt_unknown.

(** The calls main makes to the operating system. *)
Record OS := mkOS {
  os_open : string -> Z;             (* open(devPath, ...) *)
  os_tcsetattr : Z -> Z;             (* tcsetattr(handle, TCSANOW, &info) *)
  os_posix_openpt : Z -> Z;          (* posix_openpt, for the given channel *)
  os_ptsname : Z -> string;          (* ptsname_r *)
  os_symlink : string -> string -> Z (* symlink(target, linkpath) *)
}.

Inductive outcome : Type :=
| Exited (code : Z)
| Engine (ports : StdMap.t) (phys_tty : Z).  (* both threads are started *)

Definition configurePort (os : OS) (handle : Z) : Z := os_tcsetattr os handle.

Definition openPysicalPort (os : OS) (devPath : string) : Z * Z :=
  let phys_tty := os_open os devPath in
  if phys_tty <? 0 then (-1, phys_tty)
  else if negb (configurePort os phys_tty =? 0) then (-1, phys_tty)
  else (0, phys_tty).

Definition startPty (os : OS) (chan : ptyChan) : Z * ptyChan :=
  let fd := os_posix_openpt os (channelId chan) in
  let chan := mkPtyChan (channelId chan) fd (linkPath chan) (ptyName chan) in
  if fd =? -1 then (-1, chan)
  else
    let name := os_ptsname os fd in
    let chan := mkPtyChan (channelId chan) fd (linkPath chan) name in
    if (0 <? String.length (linkPath chan))%nat
    then (os_symlink os name (linkPath chan), chan)
    else (0, chan).

(** Lines 173-210: the option loop.  [inl] is an early [return]. *)
Fixpoint parse_options (opts : list getopt_result) (m : StdMap.t)
  : Z + StdMap.t :=
  match opts with
  | [] => inr m
  | Opt_c optarg :: opts' =>
      let n := atoi optarg in
      if (n >? cMaxChannelId) || (n <? 0) then inl EXIT_FAILURE
      else
        let link := default EmptyString (after_colon optarg) in
        let chan := mkPtyChan n (-1) link EmptyString in
        parse_options opts' (StdMap.emplace n chan m)
  | Opt_h :: _ | Opt_unknown :: _ => inl EXIT_SUCCESS
  end.

(** Lines 248-262: every registered channel gets its pseudo-tty. *)
Fixpoint start_ports (os : OS) (m : StdMap.t) : option StdMap.t :=
  match m with
  | [] => Some []
  | (cid, chan) :: m' =>
      let '(rv, chan) := startPty os chan in
      if negb (rv =? 0) then None
      else (fun r => (cid, chan) :: r) <$> start_ports os m'
  end.

Definition main (os : OS) (opts : list getopt_result) (operands : list string)
  : outcome :=
  match parse_options opts StdMap.empty with
  | inl code => Exited code
  | inr m =>
      if StdMap.size m <? 1 then Exited EXIT_FAILURE
      else
        match operands with
        | [] => Exited EXIT_FAILURE
        | serialPortPath :: _ =>
            let '(rv, phys_tty) := openPysicalPort os serialPortPath in
            if negb (rv =? 0) then Exited EXIT_FAILURE
            else
              match start_ports os m with
              | None => Exited EXIT_FAILURE
              | Some m => Engine m phys_tty
              end
        end
  end.

(** ** What a trace shows *)

(** The bytes handed, in order, to descriptor [fd] by [write(chan->pty)]. *)
Definition delivered (fd : Z) (t : list event) : list Z :=
  t ≫= (fun e => match e with
                 | PtyWrite fd' b => if decide (fd' = fd) then [b] else []
                 | _ => []
                 end).

(** The buffers of the successive [write(phys_tty, ...)] calls. *)
Definition phys_writes (t : list event) : list (list Z) :=
  t ≫= (fun e => match e with PhysWrite buf _ => [buf] | _ => [] end).

(** The descriptors polled by [read(chan.pty, ...)], in order. *)
Definition polled (t : list event) : list Z :=
  t ≫= (fun e => match e with PtyRead fd _ _ => [fd] | _ => [] end).

(** The lines sent to [std::cerr]. *)
Definition errors (t : list event) : list line :=
  t ≫= (fun e => match e with Cerr l => [l] | _ => [] end).

(** The lines sent to [std::cout]. *)
Definition printed (t : list event) : list line :=
  t ≫= (fun e => match e with Cout l => [l] | _ => [] end).

(** ** Frames *)

(** The four buffers [send_frame] writes for a payload: the channel id, the
    high and the low byte of the length, the data. *)
Definition frame_writes (cid : Z) (payload : list Z) : list (list Z) :=
  let nbytes := Z.of_nat (length payload) in
  [[cid]; [Z.land (Z.shiftr nbytes 8) 255]; [Z.land nbytes 255]; payload].

Definition encode (cid : Z) (payload : list Z) : list Z :=
  concat (frame_writes cid payload).

(** A frame as the peer sent it, and the reads that supply whole frames. *)
Definition frame : Type := Z * list Z.

Definition stream_of (fs : list frame) : list (option Z) :=
  Some <$> (fs ≫= (fun f => encode f.1 f.2)).

(** The descriptor [readThread] writes to for channel [cid]: the [pty] of
    [sVirtualPorts[cid]]. *)
Definition route (m : StdMap.t) (cid : Z) : Z := pty (StdMap.index cid m).1.

(** The payloads, in order, of the frames that [route] sends to [fd]. *)
Definition routed (m : StdMap.t) (fd : Z) (fs : list frame) : list Z :=
  fs ≫= (fun f => if decide (route m f.1 = fd) then f.2 else []).

(** What one payload byte leaves in the trace (lines 434-437). *)
Definition payload_events (fd : Z) (payload : list Z) : list event :=
  payload ≫= (fun b => [PhysRead (Some b); Cout (ReadRead 1);
                        PtyWrite fd b; Cout (ReadWrote 1)]).

(** What the header of a frame leaves in the trace (lines 414-427). *)
Definition header_events (cid nbytes : Z) : list event :=
  [PhysRead (Some cid); Cout (ReadCid cid);
   PhysRead (Some (Z.land (Z.shiftr nbytes 8) 255));
   PhysRead (Some (Z.land nbytes 255)); Cout (ReadNbytes nbytes)].

(** The channel ids the option loop is asked to register, in order. *)
Definition requested_ids (opts : list getopt_result) : list Z :=
  opts ≫= (fun o => match o with Opt_c optarg => [atoi optarg] | _ => [] end).

(** What polling entries with nothing to read leaves in the trace. *)
Definition idle_events (qs : gmap Z (list Z)) (m : StdMap.t) : list event :=
  m ≫= (fun e => [PtyRead (pty e.2) (idle_result qs (pty e.2)) []; Sleep]).

(** What sending one frame leaves in the trace, when the port answers the
    four writes according to [room]. *)
Definition frame_events (fd cid : Z) (data : list Z) (room : list Z)
  : list event :=
  let n := Z.of_nat (length data) in
  let r := accepted room 3 n in
  [PtyRead fd n data;
   PhysWrite [cid] (accepted room 0 1);
   PhysWrite [Z.land (Z.shiftr n 8) 255] (accepted room 1 1);
   PhysWrite [Z.land n 255] (accepted room 2 1);
   PhysWrite data r]
  ++ (if r =? n then [] else [Cerr (WriteFailed n r)]).

(** Between traces [t] and [t'] the transport was handed whole frames only,
    each with a payload of 1 to [cMaxDataSize] bytes. *)
Definition frames_added (t t' : list event) : Prop :=
  ∃ frames : list frame,
    phys_writes t' = phys_writes t ++ (frames ≫= (fun f => frame_writes f.1 f.2)) ∧
    Forall (fun f : frame => 1 ≤ Z.of_nat (length f.2) ≤ cMaxDataSize) frames.

(** ** A running example

    [serial-mux -c10:/tmp/ptyA -c20:/tmp/ptyB /dev/ttyp0] on a system where
    the serial port opens as descriptor 3 and the two pseudo-ttys as 4
    and 5. *)
Definition os_example : OS :=
  mkOS (fun _ => 3) (fun _ => 0)
       (fun cid => if cid =? 10 then 4 else 5)
       (fun fd => if fd =? 4 then "/dev/pts/1" else "/dev/pts/2")
       (fun _ _ => 0).

Definition ports_example : StdMap.t :=
  [(10, mkPtyChan 10 4 "/tmp/ptyA" "/dev/pts/1");
   (20, mkPtyChan 20 5 "/tmp/ptyB" "/dev/pts/2")].

(** Both threads running, nothing written yet; [reads] is what the serial
    port will deliver and [waiting] what the pseudo-ttys hold. *)
Definition world_example (reads : list (option Z)) (waiting : gmap Z (list Z))
  : World :=
  mkWorld ports_example false reads [] waiting [].

(** ** Shutdown (serial-mux.cpp, lines 124-130 and 382-396) *)

(** [exceptionHandler]: the line it prints, and the flag it sets. *)
Inductive handler_line : Type :=
| CaughtSignal (signo : Z).             (* "Caught signal " << signo *)

Definition exceptionHandler (signo : Z) (w : World)
  : list handler_line * World :=
  ([CaughtSignal signo],
   mkWorld (sVirtualPorts w) true (phys_in w) (phys_room w) (pty_in w)
           (trace w)).

(** What [shutdownVPorts] does, call by call. *)
Inductive teardown_call : Type :=
| Disconnecting (channelId : Z) (ptyName linkPath : string)  (* the printf *)
| Close (fd : Z)                                             (* close(chan.pty) *)
| Unlink (path : string).                                    (* unlink(linkPath) *)

Definition shutdownVPorts (m : StdMap.t) : list teardown_call :=
  m ≫= (fun e =>
          let chan := e.2 in
          [Disconnecting (channelId chan) (ptyName chan) (linkPath chan);
           Close (pty chan)]
          ++ (if negb (String.length (linkPath chan) =? 0)%nat
              then [Unlink (linkPath chan)] else [])).

Definition closed (calls : list teardown_call) : list Z :=
  calls ≫= (fun c => match c with Close fd => [fd] | _ => [] end).

Definition unlinked (calls : list teardown_call) : list string :=
  calls ≫= (fun c => match c with Unlink path => [path] | _ => [] end).

(** ** Option arguments *)

(** An option the loop of [main] goes past: [-c] with an id in range. *)
Definition accepted_option (o : getopt_result) : Prop :=
  match o with
  | Opt_c optarg => 0 ≤ atoi optarg ≤ cMaxChannelId
  | _ => False
  end.

(** A decimal numeral, most significant digit first, and its value. *)
Definition digit_char (d : nat) : ascii := ascii_of_nat (48 + d).

Fixpoint numeral (ds : list nat) (tail : string) : string :=
  match ds with
  | [] => tail
  | d :: ds' => String (digit_char d) (numeral ds' tail)
  end.

Definition numeral_value (ds : list nat) : Z :=
  fold_left (fun acc d => 10 * acc + Z.of_nat d) ds 0.

(** ** One pass of [writeThread], summarised *)

(** The frames of a pass: one for each entry whose descriptor has data,
    with the first [cMaxDataSize] bytes waiting there. *)
Definition pass_frames (m : StdMap.t) (qs : gmap Z (list Z)) : list frame :=
  m ≫= (fun e =>
          match default [] (qs !! pty e.2) with
          | [] => []
          | b :: q => [(e.1, take (Z.to_nat cMaxDataSize) (b :: q))]
          end).

(** The payload bytes, in order, of the frames labelled [cid]. *)
Definition channel_data (cid : Z) (fs : list frame) : list Z :=
  fs ≫= (fun f => if decide (f.1 = cid) then f.2 else []).

(** ** What [main] has set up *)

(** An entry as the option loop makes it: the key as channel id, no
    descriptor yet, a key in range. *)
Definition fresh_entry (e : Z * ptyChan) : Prop :=
  channelId e.2 = e.1 ∧ pty e.2 = -1 ∧ ptyName e.2 = EmptyString ∧
  0 ≤ e.1 ≤ cMaxChannelId.

(** An entry after a successful [startPty]. *)
Definition started_entry (os : OS) (e : Z * ptyChan) : Prop :=
  channelId e.2 = e.1 ∧
  0 ≤ e.1 ≤ cMaxChannelId ∧
  pty e.2 = os_posix_openpt os e.1 ∧
  pty e.2 ≠ -1 ∧
  ptyName e.2 = os_ptsname os (pty e.2) ∧
  ((0 < String.length (linkPath e.2))%nat →
   os_symlink os (ptyName e.2) (linkPath e.2) = 0).

(** ** Who touches what *)

(** From [w] to [w'] nothing was done on the egress side: no write to the
    serial port, no read of a pseudo-tty. *)
Definition no_egress (w w' : World) : Prop :=
  phys_room w' = phys_room w ∧ pty_in w' = pty_in w ∧
  phys_writes (trace w') = phys_writes (trace w) ∧
  polled (trace w') = polled (trace w).

(** From [w] to [w'] nothing was done on the ingress side: no read of the
    serial port, no write to a pseudo-tty, no change of the registry. *)
Definition no_ingress (w w' : World) : Prop :=
  phys_in w' = phys_in w ∧ sVirtualPorts w' = sVirtualPorts w ∧
  ∀ fd, delivered fd (trace w') = delivered fd (trace w).

(** ** The attributes [configurePort] asks for (lines 326-337) *)

(** [struct termios], and what <termios.h> and the C library supply: the
    flag masks, the two indices into [c_cc], and [cfmakeraw]. *)
Record termios := mkTermios {
  c_iflag : Z;
  c_oflag : Z;
  c_cflag : Z;
  c_lflag : Z;
  c_cc : list Z
}.

Record termios_h := mkTermiosH {
  CRTSCTS : Z;
  CLOCAL : Z;
  CREAD : Z;
  CSIZE : Z;
  OPOST : Z;
  VTIME : nat;
  VMIN : nat;
  cfmakeraw : termios → termios
}.

(** The [info] that [configurePort] hands to [tcsetattr], from the [info]
    that [tcgetattr] returned. *)
Definition configurePort_attributes (h : termios_h) (info : termios)
  : termios :=
  let info := cfmakeraw h info in
  let info := mkTermios (c_iflag info) (c_oflag info)
                        (Z.land (c_cflag info) (Z.lnot (CRTSCTS h)))
                        (c_lflag info) (c_cc info) in
  let info := mkTermios (c_iflag info) (c_oflag info)
                        (Z.lor (c_cflag info) (Z.lor (CLOCAL h) (CREAD h)))
                        (c_lflag info) (c_cc info) in
  let info := mkTermios (c_iflag info) (c_oflag info)
                        (Z.land (c_cflag info) (Z.lnot (CSIZE h)))
                        (c_lflag info) (c_cc info) in
  let info := mkTermios (c_iflag info)
                        (Z.land (c_oflag info) (Z.lnot (OPOST h)))
                        (c_cflag info) (c_lflag info) (c_cc info) in
  let info := mkTermios (c_iflag info) (c_oflag info) (c_cflag info)
                        (c_lflag info) (<[VTIME h := 0]> (c_cc info)) in
  mkTermios (c_iflag info) (c_oflag info) (c_cflag info) (c_lflag info)
            (<[VMIN h := 0]> (c_cc info)).

(** * Properties *)

(** ** The registry *)

Module StdMapFacts.
Import StdMap.

Lemma find_emplace_eq k v m :
  find k (emplace k v m) = Some (default v (find k m)).
Proof.
  induction m as [|[k' v'] m IH]; simpl.
  - rewrite Z.ltb_irrefl, Z.eqb_refl. reflexivity.
  - destruct (k <? k') eqn:Hlt; simpl.
    + rewrite Z.ltb_irrefl, Z.eqb_refl. reflexivity.
    + destruct (k =? k') eqn:Heq; simpl; rewrite Hlt, Heq; auto.
Qed.

Lemma find_emplace_ne k k' v m :
  k ≠ k' → find k (emplace k' v m) = find k m.
Proof.
  intros Hne. induction m as [|[k1 v1] m IH]; simpl.
  - destruct (k <? k') eqn:Hlt; [reflexivity|].
    destruct (k =? k') eqn:Heq; [lia | reflexivity].
  - destruct (k' <? k1) eqn:H1; simpl.
    + destruct (k <? k') eqn:Hlt.
      * replace (k <? k1) with true by lia. reflexivity.
      * replace (k =? k') with false by lia. reflexivity.
    + destruct (k' =? k1) eqn:H2; simpl; [reflexivity|].
      rewrite IH. reflexivity.
Qed.

Lemma emplace_present k v v' m : find k m = Some v' → emplace k v m = m.
Proof.
  induction m as [|[k1 v1] m IH]; simpl; [discriminate|].
  destruct (k <? k1); [discriminate|].
  destruct (k =? k1); [reflexivity|].
  intros H. rewrite IH by exact H. reflexivity.
Qed.

Lemma index_present k v m : find k m = Some v → index k m = (v, m).
Proof. unfold index. intros ->. reflexivity. Qed.

Lemma index_absent k m :
  find k m = None → index k m = (ptyChan_zero, emplace k ptyChan_zero m).
Proof. unfold index. intros ->. reflexivity. Qed.

Lemma keys_emplace_elem k k' v m :
  k ∈ keys (emplace k' v m) ↔ k = k' ∨ k ∈ keys m.
Proof.
  unfold keys. induction m as [|[k1 v1] m IH]; simpl.
  - rewrite list_elem_of_singleton, elem_of_nil. tauto.
  - destruct (k' <? k1) eqn:H1; simpl; [apply elem_of_cons|].
    destruct (k' =? k1) eqn:H2; simpl.
    + assert (k' = k1) as -> by lia. rewrite elem_of_cons. tauto.
    + rewrite !elem_of_cons, IH. tauto.
Qed.

Lemma emplace_ascending k v m : ascending m → ascending (emplace k v m).
Proof.
  unfold ascending, keys.
  induction m as [|[k1 v1] m IH]; simpl; intros Hs.
  - repeat constructor.
  - apply StronglySorted_inv in Hs as [Hs Hall].
    destruct (k <? k1) eqn:H1; simpl.
    + constructor; [constructor; assumption|].
      constructor; [lia|].
      eapply Forall_impl; [exact Hall|]. simpl. intros; lia.
    + destruct (k =? k1) eqn:H2; simpl.
      * constructor; assumption.
      * constructor; [auto|].
        apply Forall_forall. intros x Hx.
        apply (keys_emplace_elem x k v m) in Hx as [->|Hx]; [lia|].
        rewrite Forall_forall in Hall. apply Hall, Hx.
Qed.

(** A key that can be found is one of the keys; on an ascending map the
    converse holds too. *)
Lemma find_Some_keys k v m : find k m = Some v → k ∈ keys m.
Proof.
  unfold keys. induction m as [|[k1 v1] m IH]; simpl; [discriminate|].
  destruct (k <? k1); [discriminate|].
  destruct (k =? k1) eqn:H2; intros H; apply elem_of_cons.
  - left. lia.
  - right. exact (IH H).
Qed.

Lemma find_None_keys k m : ascending m → find k m = None → k ∉ keys m.
Proof.
  unfold ascending, keys.
  induction m as [|[k1 v1] m IH]; simpl; intros Hs; [intros _; apply not_elem_of_nil|].
  apply StronglySorted_inv in Hs as [Hs Hall].
  destruct (k <? k1) eqn:H1.
  - intros _ Hin. apply elem_of_cons in Hin as [->|Hin]; [lia|].
    rewrite Forall_forall in Hall. specialize (Hall _ Hin). lia.
  - destruct (k =? k1) eqn:H2; [discriminate|].
    intros Hf Hin. apply elem_of_cons in Hin as [->|Hin]; [lia|].
    exact (IH Hs Hf Hin).
Qed.

End StdMapFacts.

(** Brings a world built by the system calls to its constructor form. *)
Ltac world_simpl :=
  unfold write_pty; unfold emit, set_phys_in, set_ports, set_phys_room, set_pty_in;
  cbn [sVirtualPorts terminateProcess phys_in phys_room pty_in trace];
  rewrite <- ?app_assoc; cbn [app].

(** ** Traces *)

Lemma delivered_app fd t1 t2 :
  delivered fd (t1 ++ t2) = delivered fd t1 ++ delivered fd t2.
Proof. apply bind_app. Qed.

Lemma phys_writes_app t1 t2 :
  phys_writes (t1 ++ t2) = phys_writes t1 ++ phys_writes t2.
Proof. apply bind_app. Qed.

Lemma polled_app t1 t2 : polled (t1 ++ t2) = polled t1 ++ polled t2.
Proof. apply bind_app. Qed.

Lemma errors_app t1 t2 : errors (t1 ++ t2) = errors t1 ++ errors t2.
Proof. apply bind_app. Qed.

Lemma delivered_payload_events fd fd' payload :
  delivered fd (payload_events fd' payload)
  = if decide (fd' = fd) then payload else [].
Proof.
  induction payload as [|b l IH].
  - destruct (decide (fd' = fd)); reflexivity.
  - change (payload_events fd' (b :: l))
      with ([PhysRead (Some b); Cout (ReadRead 1); PtyWrite fd' b;
             Cout (ReadWrote 1)] ++ payload_events fd' l).
    rewrite delivered_app, IH. unfold delivered. simpl.
    destruct (decide (fd' = fd)); reflexivity.
Qed.

Lemma delivered_header_events fd cid nbytes :
  delivered fd (header_events cid nbytes) = [].
Proof. reflexivity. Qed.

(** ** The length field *)

Lemma length_bytes_decode (n : Z) :
  0 ≤ n < 65536 →
  (Z.shiftl (Z.land (Z.land (Z.shiftr n 8) 255) 255) 8 mod 65536
   + Z.land (Z.land n 255) 255) mod 65536 = n.
Proof.
  intros Hn.
  change 255 with (Z.ones 8).
  rewrite !Z.land_ones, Z.shiftr_div_pow2, Z.shiftl_mul_pow2 by lia.
  change (2 ^ 8) with 256.
  rewrite (Z.mod_small ((n / 256) mod 256)) by (apply Z.mod_pos_bound; lia).
  rewrite (Z.mod_small (n mod 256)) by (apply Z.mod_pos_bound; lia).
  assert (0 ≤ n / 256 < 256) by (split; [apply Z.div_pos; lia | apply Z.div_lt_upper_bound; lia]).
  rewrite (Z.mod_small (n / 256)) by lia.
  rewrite (Z.mod_small (n / 256 * 256)) by lia.
  pose proof (Z.div_mod n 256 ltac:(lia)).
  rewrite Z.mod_small; lia.
Qed.

Lemma length_bytes_div (n : Z) :
  0 ≤ n < 65536 →
  Z.land (Z.shiftr n 8) 255 = n / 256 ∧ Z.land n 255 = n mod 256.
Proof.
  intros Hn. change 255 with (Z.ones 8).
  rewrite !Z.land_ones, Z.shiftr_div_pow2 by lia.
  change (2 ^ 8) with 256. split; [|reflexivity].
  apply Z.mod_small. split; [apply Z.div_pos; lia|].
  apply Z.div_lt_upper_bound; lia.
Qed.

(** ** The ingress loop on a frame whose bytes are all there *)

Lemma forward_payload_whole payload : ∀ fd tmp w rest,
  terminateProcess w = false →
  phys_in w = (Some <$> payload) ++ rest →
  forward_payload (length payload) fd tmp w
  = (List.last (tmp :: payload) 0,
     mkWorld (sVirtualPorts w) false rest (phys_room w) (pty_in w)
             (trace w ++ payload_events fd payload)).
Proof.
  induction payload as [|b l IH]; intros fd tmp w rest Ht Hin.
  - simpl in *. destruct w; simpl in *. subst.
    unfold payload_events. simpl. rewrite app_nil_r. reflexivity.
  - cbn [length forward_payload]. rewrite Ht.
    unfold read_phys. rewrite Hin. cbn -[forward_payload payload_events].
    rewrite (IH fd b _ rest); [|exact Ht|reflexivity].
    world_simpl. reflexivity.
Qed.

Lemma read_header_whole cid nbytes tmp w s :
  0 ≤ nbytes < 65536 →
  phys_in w = Some cid :: Some (Z.land (Z.shiftr nbytes 8) 255)
              :: Some (Z.land nbytes 255) :: s →
  read_header tmp w
  = (Some (cid, nbytes, Z.land nbytes 255),
     mkWorld (sVirtualPorts w) (terminateProcess w) s (phys_room w)
             (pty_in w) (trace w ++ header_events cid nbytes)).
Proof.
  intros Hn Hin. unfold read_header, read_phys. rewrite Hin.
  cbn -[Z.land Z.shiftr Z.shiftl Z.modulo].
  rewrite (length_bytes_decode nbytes Hn).
  unfold header_events. world_simpl. reflexivity.
Qed.

Lemma encode_cons cid payload :
  encode cid payload
  = cid :: Z.land (Z.shiftr (Z.of_nat (length payload)) 8) 255
        :: Z.land (Z.of_nat (length payload)) 255 :: payload.
Proof. unfold encode, frame_writes. simpl. rewrite app_nil_r. reflexivity. Qed.

(** One turn of [readThread] on a whole frame: the header is read back, the
    payload goes byte by byte to the descriptor of [sVirtualPorts[cid]], and
    the reads stop exactly at the end of the frame. *)
Lemma readThread_body_whole cid payload tmp w rest :
  Z.of_nat (length payload) < 65536 →
  terminateProcess w = false →
  phys_in w = (Some <$> encode cid payload) ++ rest →
  readThread_body tmp w
  = (List.last (Z.land (Z.of_nat (length payload)) 255 :: payload) 0,
     mkWorld (StdMap.index cid (sVirtualPorts w)).2 false rest (phys_room w)
             (pty_in w)
             (trace w ++ header_events cid (Z.of_nat (length payload))
                      ++ payload_events (route (sVirtualPorts w) cid) payload)).
Proof.
  intros Hlen Ht Hin. rewrite encode_cons in Hin.
  cbn [fmap list_fmap app] in Hin.
  unfold readThread_body.
  rewrite (read_header_whole cid (Z.of_nat (length payload)) tmp w
             ((Some <$> payload) ++ rest)) by (lia || exact Hin).
  cbn iota beta. cbn [sVirtualPorts].
  unfold route.
  destruct (StdMap.index cid (sVirtualPorts w)) as [chan m] eqn:Hidx.
  rewrite Nat2Z.id.
  rewrite (forward_payload_whole payload (pty chan) _ _ rest);
    [|exact Ht|reflexivity].
  world_simpl. reflexivity.
Qed.

(** ** Routing is stable under [operator[]] *)

Lemma route_index_stable m c c' :
  route (StdMap.index c m).2 c' = route m c'.
Proof.
  unfold route, StdMap.index.
  destruct (StdMap.find c m) as [v|] eqn:Hc; simpl; [reflexivity|].
  destruct (decide (c' = c)) as [->|Hne].
  - rewrite StdMapFacts.find_emplace_eq, Hc. reflexivity.
  - rewrite StdMapFacts.find_emplace_ne by exact Hne.
    destruct (StdMap.find c' m); reflexivity.
Qed.

Lemma route_present m c v : StdMap.find c m = Some v → route m c = pty v.
Proof. unfold route, StdMap.index. intros ->. reflexivity. Qed.

Lemma route_absent m c : StdMap.find c m = None → route m c = 0.
Proof. unfold route, StdMap.index. intros ->. reflexivity. Qed.

Lemma routed_ext m m' fd fs :
  (∀ c, route m c = route m' c) → routed m fd fs = routed m' fd fs.
Proof.
  intros H. unfold routed. induction fs as [|f fs IH]; [reflexivity|].
  rewrite !bind_cons, IH, H. reflexivity.
Qed.

Lemma routed_cons m fd f fs :
  routed m fd (f :: fs)
  = (if decide (route m f.1 = fd) then f.2 else []) ++ routed m fd fs.
Proof. reflexivity. Qed.

Lemma stream_of_cons f fs :
  stream_of (f :: fs) = (Some <$> encode f.1 f.2) ++ stream_of fs.
Proof. unfold stream_of. rewrite bind_cons, fmap_app. reflexivity. Qed.

(** ** [readThread] on a sequence of whole frames *)

Lemma readThread_loop_frames fs : ∀ tmp w rest,
  Forall (fun f : frame => Z.of_nat (length f.2) < 65536) fs →
  terminateProcess w = false →
  phys_in w = stream_of fs ++ rest →
  let w' := readThread_loop (length fs) tmp w in
  terminateProcess w' = false ∧ phys_in w' = rest ∧
  (∀ c, route (sVirtualPorts w') c = route (sVirtualPorts w) c) ∧
  (∀ fd, delivered fd (trace w')
         = delivered fd (trace w) ++ routed (sVirtualPorts w) fd fs).
Proof.
  induction fs as [|[cid payload] fs IH]; intros tmp w rest Hlen Ht Hin.
  - simpl. repeat split; auto. intros fd. unfold routed.
    rewrite app_nil_r. reflexivity.
  - apply Forall_cons in Hlen as [Hl Hlen]. simpl in Hl.
    rewrite stream_of_cons, <- app_assoc in Hin. simpl in Hin.
    cbn [length readThread_loop]. rewrite Ht.
    rewrite (readThread_body_whole cid payload tmp w _ Hl Ht Hin).
    match goal with
    | |- context [readThread_loop _ ?t ?w1] =>
        specialize (IH t w1 rest Hlen eq_refl eq_refl)
    end.
    cbn zeta in IH. cbn [sVirtualPorts trace] in IH.
    destruct IH as (IH1 & IH2 & IH3 & IH4).
    cbn zeta. repeat split; auto.
    + intros c. rewrite IH3. apply route_index_stable.
    + intros fd. rewrite IH4, routed_cons. cbn [fst snd].
      rewrite !delivered_app, delivered_header_events,
        delivered_payload_events, <- !app_assoc. cbn [app].
      rewrite (routed_ext _ (sVirtualPorts w)); [reflexivity|].
      intros c. apply route_index_stable.
Qed.

(** ** The egress step *)

Lemma send_frame_spec cid nbytes buf w :
  let data := take (Z.to_nat nbytes) buf in
  let room := phys_room w in
  let r := accepted room 3 (Z.of_nat (length data)) in
  send_frame cid nbytes buf w
  = mkWorld (sVirtualPorts w) (terminateProcess w) (phys_in w) (drop 4 room)
            (pty_in w)
            (trace w ++
             [PhysWrite [cid] (accepted room 0 1);
              PhysWrite [Z.land (Z.shiftr nbytes 8) 255] (accepted room 1 1);
              PhysWrite [Z.land nbytes 255] (accepted room 2 1);
              PhysWrite data r]
             ++ (if r =? nbytes then [] else [Cerr (WriteFailed nbytes r)])).
Proof.
  cbn zeta. unfold send_frame, write_phys.
  cbn [sVirtualPorts terminateProcess phys_in phys_room pty_in trace
       emit set_phys_room].
  set (data := take (Z.to_nat nbytes) buf).
  assert (Hr : ∀ (l : list Z) (i : nat) len,
             accepted (tail l) i len = accepted l (S i) len).
  { intros [|a l] i len; reflexivity. }
  assert (Hd : ∀ l : list Z, tail (tail (tail (tail l))) = drop 4 l).
  { intros [|a1 [|a2 [|a3 [|a4 l]]]]; reflexivity. }
  rewrite !Hr, Hd.
  change (Z.of_nat (length [cid])) with 1.
  change (Z.of_nat (length [Z.land (Z.shiftr nbytes 8) 255])) with 1.
  change (Z.of_nat (length [Z.land nbytes 255])) with 1.
  destruct (accepted (phys_room w) 3 (Z.of_nat (length data)) =? nbytes);
    world_simpl; rewrite ?app_nil_r; reflexivity.
Qed.

Lemma read_count_bounds (q : list Z) :
  q ≠ [] →
  1 ≤ Z.of_nat (Nat.min (Z.to_nat cMaxDataSize) (length q)) ≤ cMaxDataSize.
Proof.
  intros Hq. destruct q as [|b q]; [congruence|].
  unfold cMaxDataSize. cbn [length]. lia.
Qed.

Lemma idle_result_lt qs fd : (idle_result qs fd <? 1) = true.
Proof. unfold idle_result. destruct (qs !! fd); reflexivity. Qed.

Lemma idle_result_cases qs fd : idle_result qs fd = 0 ∨ idle_result qs fd = -1.
Proof. unfold idle_result. destruct (qs !! fd); auto. Qed.

(** What the body of the range-for does for one entry: nothing but a poll
    when the descriptor has no data, one frame otherwise. *)
Lemma writeThread_step_spec cid chan buf w :
  let q := default [] (pty_in w !! pty chan) in
  let k := Nat.min (Z.to_nat cMaxDataSize) (length q) in
  writeThread_step (cid, chan) buf w
  = match q with
    | [] => (false, buf,
             mkWorld (sVirtualPorts w) (terminateProcess w) (phys_in w)
                     (phys_room w) (pty_in w)
                     (trace w ++ [PtyRead (pty chan)
                                    (idle_result (pty_in w) (pty chan)) [];
                                  Sleep]))
    | _ :: _ =>
        (terminateProcess w, take k q ++ drop k buf,
         mkWorld (sVirtualPorts w) (terminateProcess w) (phys_in w)
                 (drop 4 (phys_room w))
                 (<[pty chan := drop k q]> (pty_in w))
                 (trace w
                  ++ frame_events (pty chan) cid (take k q) (phys_room w)))
    end.
Proof.
  cbn zeta. unfold writeThread_step, read_pty.
  destruct (default [] (pty_in w !! pty chan)) as [|b q] eqn:Hq.
  - cbn zeta. rewrite idle_result_lt. world_simpl. reflexivity.
  - set (k := Nat.min (Z.to_nat cMaxDataSize) (length (b :: q))).
    pose proof (read_count_bounds (b :: q) ltac:(congruence)) as Hk.
    fold k in Hk. unfold cMaxDataSize in Hk.
    replace (Z.of_nat k <? 1) with false by lia.
    rewrite (Z.mod_small (Z.of_nat k)) by lia.
    assert (Hlen : length (take k (b :: q)) = k).
    { rewrite length_take. unfold k. lia. }
    rewrite send_frame_spec. rewrite Nat2Z.id.
    rewrite (take_app_length' _ _ k) by (symmetry; exact Hlen).
    unfold frame_events. rewrite Hlen.
    world_simpl. reflexivity.
Qed.

Lemma phys_writes_frame_events fd cid data room :
  phys_writes (frame_events fd cid data room) = frame_writes cid data.
Proof.
  unfold frame_events. rewrite phys_writes_app.
  destruct (accepted room 3 (Z.of_nat (length data)) =? Z.of_nat (length data));
    reflexivity.
Qed.

Lemma polled_frame_events fd cid data room :
  polled (frame_events fd cid data room) = [fd].
Proof.
  unfold frame_events. rewrite polled_app.
  destruct (accepted room 3 (Z.of_nat (length data)) =? Z.of_nat (length data));
    reflexivity.
Qed.

Lemma phys_writes_idle_events qs m : phys_writes (idle_events qs m) = [].
Proof. induction m as [|e m IH]; [reflexivity|exact IH]. Qed.

Lemma take_min_length {A} (n : nat) (l : list A) :
  take (Nat.min n (length l)) l = take n l.
Proof.
  destruct (Nat.le_gt_cases n (length l)) as [H|H].
  - rewrite Nat.min_l by exact H. reflexivity.
  - rewrite Nat.min_r, firstn_all by lia.
    symmetry. apply take_ge. lia.
Qed.

(** The step never touches the registry, the flag or the transport's input,
    polls exactly its own descriptor, and asks for a [break] only when the
    flag is set. *)
Lemma writeThread_step_keeps entry buf w :
  let r := writeThread_step entry buf w in
  sVirtualPorts r.2 = sVirtualPorts w ∧
  terminateProcess r.2 = terminateProcess w ∧
  phys_in r.2 = phys_in w ∧
  polled (trace r.2) = polled (trace w) ++ [pty entry.2] ∧
  (r.1.1 = true → terminateProcess w = true).
Proof.
  destruct entry as [cid chan]. cbn zeta.
  rewrite writeThread_step_spec.
  destruct (default [] (pty_in w !! pty chan)) as [|b q]; cbn [fst snd];
    cbn [sVirtualPorts terminateProcess phys_in trace];
    rewrite polled_app, ?polled_frame_events;
    repeat split; auto; discriminate.
Qed.

Lemma writeThread_for_keeps m : ∀ buf w,
  terminateProcess w = false →
  let r := writeThread_for m buf w in
  sVirtualPorts r.2 = sVirtualPorts w ∧
  terminateProcess r.2 = false ∧
  phys_in r.2 = phys_in w ∧
  polled (trace r.2) = polled (trace w) ++ ((fun e => pty e.2) <$> m).
Proof.
  induction m as [|e m IH]; intros buf w Ht; cbn zeta.
  - simpl. rewrite app_nil_r. auto.
  - cbn [writeThread_for].
    pose proof (writeThread_step_keeps e buf w) as (H1 & H2 & H3 & H4 & H5).
    cbn zeta in *.
    destruct (writeThread_step e buf w) as [[brk buf'] w'].
    cbn [fst snd] in *.
    destruct brk; [specialize (H5 eq_refl); congruence|].
    rewrite Ht in H2.
    destruct (IH buf' w' H2) as (I1 & I2 & I3 & I4).
    rewrite I1, I2, I3, I4, H1, H3, H4, fmap_cons, <- app_assoc.
    auto.
Qed.

(** Entries whose descriptors have nothing to read are polled and passed. *)
Lemma writeThread_for_idle_app l1 : ∀ l buf w,
  Forall (fun e : Z * ptyChan => default [] (pty_in w !! pty e.2) = []) l1 →
  writeThread_for (l1 ++ l) buf w
  = writeThread_for l buf
      (mkWorld (sVirtualPorts w) (terminateProcess w) (phys_in w) (phys_room w)
               (pty_in w) (trace w ++ idle_events (pty_in w) l1)).
Proof.
  induction l1 as [|[cid chan] l1 IH]; intros l buf w Hidle.
  - destruct w. simpl. unfold idle_events. simpl. rewrite app_nil_r.
    reflexivity.
  - apply Forall_cons in Hidle as [Hq Hidle]. cbn [snd] in Hq.
    cbn [app writeThread_for]. rewrite writeThread_step_spec, Hq.
    rewrite IH by exact Hidle. world_simpl. reflexivity.
Qed.

(** ** Start-up *)

Lemma parse_options_app o1 : ∀ o2 m,
  parse_options (o1 ++ o2) m
  = match parse_options o1 m with
    | inl code => inl code
    | inr m1 => parse_options o2 m1
    end.
Proof.
  induction o1 as [|[optarg| |] o1 IH]; intros o2 m; cbn [app parse_options];
    try reflexivity.
  destruct ((atoi optarg >? cMaxChannelId) || (atoi optarg <? 0));
    [reflexivity | apply IH].
Qed.

Lemma find_emplace_keeps k k' v m :
  is_Some (StdMap.find k m) → is_Some (StdMap.find k (StdMap.emplace k' v m)).
Proof.
  intros [x Hx]. destruct (decide (k = k')) as [->|Hne].
  - rewrite StdMapFacts.find_emplace_eq, Hx. eauto.
  - rewrite StdMapFacts.find_emplace_ne, Hx by exact Hne. eauto.
Qed.

(** What a successful option loop leaves: an ascending registry whose keys
    are the keys it started with and the requested ids, every one of them
    findable. *)
Lemma parse_options_inr opts : ∀ m0 m,
  parse_options opts m0 = inr m →
  (StdMap.ascending m0 → StdMap.ascending m) ∧
  (∀ k, k ∈ StdMap.keys m ↔ k ∈ StdMap.keys m0 ∨ k ∈ requested_ids opts) ∧
  (∀ k, is_Some (StdMap.find k m0) → is_Some (StdMap.find k m)) ∧
  (∀ a, Opt_c a ∈ opts →
        0 ≤ atoi a ≤ cMaxChannelId ∧ is_Some (StdMap.find (atoi a) m)).
Proof.
  induction opts as [|[optarg| |] opts IH]; intros m0 m Hp;
    cbn [parse_options] in Hp; try discriminate.
  - injection Hp as <-. split; [auto|]. split; [|split; [auto|]].
    + intros k. change (requested_ids []) with (@nil Z).
      rewrite elem_of_nil. tauto.
    + intros a Ha. inversion Ha.
  - destruct ((atoi optarg >? cMaxChannelId) || (atoi optarg <? 0)) eqn:Hr;
      [discriminate|].
    apply orb_false_iff in Hr as [Hr1 Hr2].
    destruct (IH _ _ Hp) as (I1 & I2 & I3 & I4).
    split; [|split; [|split]].
    + intros Ha. apply I1, StdMapFacts.emplace_ascending, Ha.
    + intros k. rewrite I2, StdMapFacts.keys_emplace_elem.
      unfold requested_ids. rewrite bind_cons.
      fold (requested_ids opts). rewrite elem_of_app, list_elem_of_singleton.
      tauto.
    + intros k Hk. apply I3, find_emplace_keeps, Hk.
    + intros a Ha. apply elem_of_cons in Ha as [Ha|Ha]; [|apply I4, Ha].
      injection Ha as ->. split; [lia|].
      apply I3. rewrite StdMapFacts.find_emplace_eq. eauto.
Qed.

Lemma start_ports_keys os m : ∀ m',
  start_ports os m = Some m' → StdMap.keys m' = StdMap.keys m.
Proof.
  unfold StdMap.keys.
  induction m as [|[cid chan] m IH]; intros m' H; cbn [start_ports] in H.
  - injection H as <-. reflexivity.
  - destruct (startPty os chan) as [rv chan'].
    destruct (negb (rv =? 0)); [discriminate|].
    destruct (start_ports os m) as [r|]; [|discriminate].
    injection H as <-. cbn. rewrite (IH r eq_refl). reflexivity.
Qed.

(** What [main] has established when it starts the threads. *)
Lemma main_engine os opts operands m fd :
  main os opts operands = Engine m fd →
  StdMap.ascending m ∧ (∀ k, k ∈ StdMap.keys m ↔ k ∈ requested_ids opts).
Proof.
  unfold main. intros H.
  destruct (parse_options opts StdMap.empty) as [code|m0] eqn:Hp;
    [discriminate|].
  destruct (StdMap.size m0 <? 1); [discriminate|].
  destruct operands as [|path operands]; [discriminate|].
  destruct (openPysicalPort os path) as [rv tty].
  destruct (negb (rv =? 0)); [discriminate|].
  destruct (start_ports os m0) as [m1|] eqn:Hs; [|discriminate].
  injection H as <- <-.
  destruct (parse_options_inr _ _ _ Hp) as (I1 & I2 & _).
  unfold StdMap.ascending. rewrite (start_ports_keys _ _ _ Hs).
  split.
  - apply I1. constructor.
  - intros k. rewrite I2. unfold StdMap.keys, StdMap.empty. cbn.
    rewrite elem_of_nil. tauto.
Qed.

(** ** One turn of [readThread], whatever the reads return *)

Lemma read_phys_keeps var w :
  let r := read_phys var w in
  sVirtualPorts r.2 = sVirtualPorts w ∧
  terminateProcess r.2 = terminateProcess w ∧
  trace r.2 = trace w ++ [PhysRead (default None (head (phys_in w)))] ∧
  r.1 = match head (phys_in w) with
        | Some (Some b) => (1, b)
        | _ => (0, var)
        end.
Proof.
  unfold read_phys. destruct (head (phys_in w)) as [[b|]|]; cbn; auto.
Qed.

(** The payload loop never touches the registry or the flag, and writes to
    no descriptor but the one it was given. *)
Lemma forward_payload_keeps n : ∀ fd tmp w,
  let r := forward_payload n fd tmp w in
  sVirtualPorts r.2 = sVirtualPorts w ∧
  terminateProcess r.2 = terminateProcess w ∧
  ∃ t, trace r.2 = trace w ++ t ∧ ∀ fd', fd' ≠ fd → delivered fd' t = [].
Proof.
  induction n as [|n IH]; intros fd tmp w; cbn zeta.
  - cbn. repeat split; auto. exists []. rewrite app_nil_r. auto.
  - cbn [forward_payload].
    destruct (terminateProcess w) eqn:Ht.
    { cbn. repeat split; auto. exists []. rewrite app_nil_r. auto. }
    destruct (read_phys_keeps tmp w) as (R1 & R2 & R3 & _). cbn zeta in *.
    destruct (read_phys tmp w) as [[k b] w1]. cbn [snd] in *.
    match goal with
    | |- context [forward_payload n fd b ?w2] =>
        destruct (IH fd b w2) as (I1 & I2 & t & I3 & I4)
    end.
    cbn zeta in *. rewrite I1, I2, I3.
    cbn [sVirtualPorts terminateProcess trace emit write_pty].
    rewrite R1, R2, R3, Ht. repeat split; auto.
    eexists. split; [rewrite <- !app_assoc; reflexivity|].
    intros fd' Hne. rewrite !delivered_app, (I4 fd' Hne).
    unfold delivered. cbn. destruct (decide (fd = fd')); [congruence|].
    reflexivity.
Qed.

(** Reading the header writes to no descriptor and leaves the registry
    alone; the channel id it returns is the byte of its first read. *)
Lemma read_header_keeps tmp w :
  let r := read_header tmp w in
  sVirtualPorts r.2 = sVirtualPorts w ∧
  terminateProcess r.2 = terminateProcess w ∧
  (∃ t, trace r.2 = trace w ++ t ∧ ∀ fd, delivered fd t = []) ∧
  match r.1 with
  | Some (cid, _, _) => head (phys_in w) = Some (Some cid)
  | None => ∀ cid, head (phys_in w) ≠ Some (Some cid)
  end.
Proof.
  cbn zeta. unfold read_header.
  destruct (read_phys_keeps 0 w) as (A1 & A2 & A3 & A4). cbn zeta in *.
  destruct (read_phys 0 w) as [[n cid] w0]. cbn [fst snd] in *.
  destruct (head (phys_in w)) as [[b|]|] eqn:Hh; injection A4 as -> ->.
  - change (negb (1 =? 1)) with false. cbv iota.
    destruct (read_phys_keeps tmp (emit (Cout (ReadCid b)) w0))
      as (B1 & B2 & B3 & _). cbn zeta in *.
    destruct (read_phys tmp (emit (Cout (ReadCid b)) w0)) as [[n1 t1] w1].
    cbn [fst snd] in *.
    destruct (read_phys_keeps t1 w1) as (C1 & C2 & C3 & _). cbn zeta in *.
    destruct (read_phys t1 w1) as [[n2 t2] w2]. cbn [fst snd] in *.
    cbn [sVirtualPorts terminateProcess trace emit] in *.
    rewrite C1, C2, C3, B1, B2, B3, A1, A2, A3.
    repeat split; auto.
    eexists. split; [rewrite <- !app_assoc; reflexivity|].
    intros fd. reflexivity.
  - change (negb (0 =? 1)) with true. cbv iota.
    cbn [fst snd sVirtualPorts terminateProcess trace emit].
    rewrite A1, A2, A3. repeat split; auto; try discriminate.
    eexists. split; [rewrite <- !app_assoc; reflexivity | reflexivity].
  - change (negb (0 =? 1)) with true. cbv iota.
    cbn [fst snd sVirtualPorts terminateProcess trace emit].
    rewrite A1, A2, A3. repeat split; auto; try discriminate.
    eexists. split; [rewrite <- !app_assoc; reflexivity | reflexivity].
Qed.

(** A turn changes the registry by at most the [operator[]] on the channel
    id it has read, and every byte it writes goes to the descriptor of that
    entry. *)
Lemma readThread_body_turn tmp w :
  let r := readThread_body tmp w in
  match head (phys_in w) with
  | Some (Some cid) =>
      sVirtualPorts r.2 = (StdMap.index cid (sVirtualPorts w)).2 ∧
      ∀ fd, fd ≠ route (sVirtualPorts w) cid →
            delivered fd (trace r.2) = delivered fd (trace w)
  | _ =>
      sVirtualPorts r.2 = sVirtualPorts w ∧
      ∀ fd, delivered fd (trace r.2) = delivered fd (trace w)
  end.
Proof.
  cbn zeta. unfold readThread_body.
  destruct (read_header_keeps tmp w) as (H1 & H2 & (t & H3 & H4) & H5).
  cbn zeta in *.
  destruct (read_header tmp w) as [[[[cid nbytes] tmp']|] w1]; cbn [fst snd] in *.
  - rewrite H5, <- H1. unfold route.
    destruct (StdMap.index cid (sVirtualPorts w1)) as [chan m] eqn:Hidx.
    destruct (forward_payload_keeps (Z.to_nat nbytes) (pty chan) tmp'
                (set_ports m w1)) as (F1 & _ & t' & F3 & F4).
    cbn zeta in *. cbn [fst snd]. split; [exact F1|].
    intros fd Hfd. rewrite F3. cbn [trace set_ports].
    rewrite H3, !delivered_app, H4, (F4 fd Hfd), !app_nil_r. reflexivity.
  - assert (Hh : ∀ fd, delivered fd (trace w1) = delivered fd (trace w)).
    { intros fd. rewrite H3, delivered_app, H4, app_nil_r. reflexivity. }
    destruct (head (phys_in w)) as [[c|]|]; auto.
    exfalso. exact (H5 c eq_refl).
Qed.

(** * The claims *)

(** ** Ingress *)

Lemma printed_app t1 t2 : printed (t1 ++ t2) = printed t1 ++ printed t2.
Proof. apply bind_app. Qed.

Lemma printed_payload_events fd payload :
  printed (payload_events fd payload)
  = payload ≫= (fun _ => [ReadRead 1; ReadWrote 1]).
Proof.
  induction payload as [|b l IH]; [reflexivity|].
  change (payload_events fd (b :: l))
    with ([PhysRead (Some b); Cout (ReadRead 1); PtyWrite fd b;
           Cout (ReadWrote 1)] ++ payload_events fd l).
  rewrite printed_app, IH. reflexivity.
Qed.

Lemma send_frame_writes cid payload w :
  phys_writes (trace (send_frame cid (Z.of_nat (length payload)) payload w))
  = phys_writes (trace w) ++ frame_writes cid payload.
Proof.
  rewrite send_frame_spec. cbn [trace].
  rewrite Nat2Z.id, firstn_all, !phys_writes_app.
  destruct (accepted (phys_room w) 3 (Z.of_nat (length payload))
            =? Z.of_nat (length payload)); cbn; rewrite ?app_nil_r; reflexivity.
Qed.

(** C1.  Round trip of the frame format.  For a channel id in 0..255 and a
    payload of at most [cMaxDataSize] bytes, [writeThread]'s four writes
    hand the transport the channel id, the two length bytes (most
    significant first) and the payload; when [readThread] reads those bytes
    it gets back the same channel id and length from the header and
    forwards exactly the payload, to the descriptor of that channel, and
    stops reading at the end of the frame. *)
Theorem frame_roundtrip (cid : Z) (payload : list Z) (sender : World)
    (tmp : Z) (w : World) (rest : list (option Z)) :
  0 ≤ cid ≤ cMaxChannelId →
  0 ≤ Z.of_nat (length payload) ≤ cMaxDataSize →
  terminateProcess w = false →
  phys_in w = (Some <$> encode cid payload) ++ rest →
  phys_writes (trace (send_frame cid (Z.of_nat (length payload)) payload sender))
  = phys_writes (trace sender) ++ frame_writes cid payload ∧
  (read_header tmp w).1
  = Some (cid, Z.of_nat (length payload),
          Z.land (Z.of_nat (length payload)) 255) ∧
  phys_in (readThread_body tmp w).2 = rest ∧
  ∀ fd, delivered fd (trace (readThread_body tmp w).2)
        = delivered fd (trace w)
          ++ (if decide (route (sVirtualPorts w) cid = fd) then payload else []).
Proof.
  intros _ Hlen Ht Hin. unfold cMaxDataSize in Hlen.
  split; [apply send_frame_writes|].
  split.
  - rewrite encode_cons in Hin. cbn [fmap list_fmap app] in Hin.
    rewrite (read_header_whole cid (Z.of_nat (length payload)) tmp w _
               ltac:(lia) Hin).
    reflexivity.
  - rewrite (readThread_body_whole cid payload tmp w rest ltac:(lia) Ht Hin).
    cbn [snd phys_in trace]. split; [reflexivity|]. intros fd.
    rewrite !delivered_app, delivered_header_events, delivered_payload_events.
    reflexivity.
Qed.

Lemma frame_roundtrip_witness :
  (read_header 0 (world_example (Some <$> encode 10 [97; 98; 99]) ∅)).1
  = Some (10, 3, 3) ∧
  delivered 4
    (trace (readThread_body 0
              (world_example (Some <$> encode 10 [97; 98; 99]) ∅)).2)
  = [97; 98; 99].
Proof.
  destruct (frame_roundtrip 10 [97; 98; 99] (world_example [] ∅) 0
              (world_example (Some <$> encode 10 [97; 98; 99]) ∅) [])
    as (_ & H2 & _ & H4).
  - unfold cMaxChannelId. lia.
  - unfold cMaxDataSize. simpl. lia.
  - reflexivity.
  - rewrite app_nil_r. reflexivity.
  - split; [exact H2 | exact (H4 4)].
Defined.

(** C2.  The registry does not stay as [main] built it: a frame whose
    channel id is not registered makes [readThread] insert an entry for
    that id, through [sVirtualPorts[cid]].  Here channels 10 and 20 are
    registered and a one-byte frame for channel 30 arrives. *)
Theorem registry_grows_on_unregistered_id :
  StdMap.keys (sVirtualPorts (world_example (Some <$> encode 30 [97]) ∅))
  = [10; 20] ∧
  StdMap.find 30 (sVirtualPorts (world_example (Some <$> encode 30 [97]) ∅))
  = None ∧
  StdMap.keys
    (sVirtualPorts
       (readThread_body 0 (world_example (Some <$> encode 30 [97]) ∅)).2)
  = [10; 20; 30] ∧
  StdMap.find 30
    (sVirtualPorts
       (readThread_body 0 (world_example (Some <$> encode 30 [97]) ∅)).2)
  = Some ptyChan_zero.
Proof. repeat split; vm_compute; reflexivity. Qed.

(** C3, as the spec states it, fails: the payload of a frame for an
    unregistered channel is not discarded.  With channels 10 and 20
    registered, the two payload bytes of a frame for channel 30 are written
    to a descriptor: descriptor 0, the [pty] of the entry that
    [sVirtualPorts[cid]] has just inserted for channel 30. *)
Lemma unroutable_payload_is_written :
  ¬ (∀ fd,
       delivered fd
         (trace (readThread_body 0
                   (world_example (Some <$> encode 30 [120; 121]) ∅)).2)
       = delivered fd
           (trace (world_example (Some <$> encode 30 [120; 121]) ∅))) ∧
  delivered 0
    (trace (readThread_body 0
              (world_example (Some <$> encode 30 [120; 121]) ∅)).2)
  = [120; 121] ∧
  StdMap.find 30
    (sVirtualPorts
       (readThread_body 0
          (world_example (Some <$> encode 30 [120; 121]) ∅)).2)
  = Some (mkPtyChan 0 0 "" "").
Proof.
  split; [|split; vm_compute; reflexivity].
  intros H. specialize (H 0). vm_compute in H. discriminate H.
Qed.

(** C3, amended.  A frame for an unregistered channel whose bytes are all
    there when [readThread] reads them costs the transport exactly its three
    header bytes and its declared number of payload bytes; the thread prints
    its lines for the frame (channel id, length, a read/wrote pair per byte)
    and goes on; a valid frame that follows immediately is then read from
    its first byte, and its payload, nothing more and nothing less, is
    written to the descriptor of its own channel.  Nothing is said about
    where the unroutable payload goes. *)
Theorem unroutable_frame_drained (cid : Z) (payload : list Z)
    (B : Z) (chanB : ptyChan) (payloadB : list Z)
    (tmp : Z) (w : World) (rest : list (option Z)) :
  StdMap.find cid (sVirtualPorts w) = None →
  StdMap.find B (sVirtualPorts w) = Some chanB →
  Z.of_nat (length payload) < 65536 →
  Z.of_nat (length payloadB) < 65536 →
  terminateProcess w = false →
  phys_in w
  = (Some <$> encode cid payload) ++ (Some <$> encode B payloadB) ++ rest →
  let r1 := readThread_body tmp w in
  let r2 := readThread_body r1.1 r1.2 in
  phys_in r1.2 = (Some <$> encode B payloadB) ++ rest ∧
  printed (trace r1.2)
  = printed (trace w)
    ++ [ReadCid cid; ReadNbytes (Z.of_nat (length payload))]
    ++ (payload ≫= (fun _ => [ReadRead 1; ReadWrote 1])) ∧
  terminateProcess r1.2 = false ∧
  readThread_loop 2 tmp w = r2.2 ∧
  phys_in r2.2 = rest ∧
  ∀ fd, delivered fd (trace r2.2)
        = delivered fd (trace r1.2)
          ++ (if decide (pty chanB = fd) then payloadB else []).
Proof.
  intros _ HB Hl HlB Ht Hin. cbn zeta.
  rewrite (readThread_body_whole cid payload tmp w _ Hl Ht Hin).
  cbn [fst snd phys_in trace terminateProcess].
  split; [reflexivity|]. split.
  { rewrite !printed_app, printed_payload_events. reflexivity. }
  split; [reflexivity|].
  assert (Hbody := fun t w1 Ht1 Hin1 =>
            readThread_body_whole B payloadB t w1 rest HlB Ht1 Hin1).
  split.
  { cbn [readThread_loop]. rewrite Ht.
    rewrite (readThread_body_whole cid payload tmp w _ Hl Ht Hin).
    cbn [terminateProcess].
    destruct (readThread_body _ _) as [t2 w2]. reflexivity. }
  rewrite Hbody by reflexivity.
  cbn [snd phys_in trace sVirtualPorts]. split; [reflexivity|].
  intros fd.
  rewrite route_index_stable, (route_present _ _ _ HB).
  rewrite !delivered_app, !delivered_header_events, !delivered_payload_events.
  rewrite <- !app_assoc. cbn [app]. reflexivity.
Qed.

Lemma unroutable_frame_drained_witness :
  phys_in
    (readThread_loop 2 0
       (world_example (Some <$> encode 30 [120; 121] ++ encode 10 [97; 98; 99])
                      ∅))
  = [] ∧
  delivered 4
    (trace
       (readThread_loop 2 0
          (world_example
             (Some <$> encode 30 [120; 121] ++ encode 10 [97; 98; 99]) ∅)))
  = [97; 98; 99].
Proof.
  destruct (unroutable_frame_drained 30 [120; 121] 10
              (mkPtyChan 10 4 "/tmp/ptyA" "/dev/pts/1") [97; 98; 99] 0
              (world_example
                 (Some <$> encode 30 [120; 121] ++ encode 10 [97; 98; 99]) ∅)
              [])
    as (_ & _ & _ & H4 & H5 & H6).
  - reflexivity.
  - reflexivity.
  - simpl. lia.
  - simpl. lia.
  - reflexivity.
  - reflexivity.
  - rewrite H4. split; [exact H5|]. rewrite (H6 4). reflexivity.
Defined.

Lemma routed_filter (P : frame → Prop) `{∀ f, Decision (P f)} m fd fs :
  (∀ f, f ∈ fs → ¬ P f → route m f.1 ≠ fd) →
  routed m fd (filter P fs) = routed m fd fs.
Proof.
  induction fs as [|f fs IH]; intros Hr; [reflexivity|].
  rewrite filter_cons, routed_cons.
  assert (Hfs : ∀ f0, f0 ∈ fs → ¬ P f0 → route m f0.1 ≠ fd).
  { intros f0 Hf0. apply Hr. right. exact Hf0. }
  destruct (decide (P f)) as [HP|HP].
  - rewrite routed_cons, IH by exact Hfs. reflexivity.
  - rewrite IH by exact Hfs.
    destruct (decide (route m f.1 = fd)) as [Heq|]; [|reflexivity].
    exfalso. exact (Hr f ltac:(left) HP Heq).
Qed.

(** Two registered channels when every read returns a byte.  Let A and B be
    registered on different descriptors.  Whatever the reads return, a turn
    of [readThread] that begins by reading channel id A writes nothing to
    B's descriptor, and a turn that begins with B nothing to A's.  And when
    frames for any channels arrive whole, in any order, with no read coming
    back empty, what each descriptor receives is the concatenation of the
    payloads of the frames routed to it; frames labelled A are routed to A's
    descriptor and frames labelled B to B's; so B's descriptor receives
    exactly what it would receive with every A-frame removed from the
    stream, and A's descriptor exactly what it would receive with every
    B-frame removed. *)
Theorem channel_isolation (A B : Z) (chanA chanB : ptyChan) (fs : list frame)
    (tmp : Z) (w : World) (rest : list (option Z)) :
  StdMap.find A (sVirtualPorts w) = Some chanA →
  StdMap.find B (sVirtualPorts w) = Some chanB →
  pty chanA ≠ pty chanB →
  Forall (fun f : frame => Z.of_nat (length f.2) < 65536) fs →
  terminateProcess w = false →
  phys_in w = stream_of fs ++ rest →
  let w' := readThread_loop (length fs) tmp w in
  let m := sVirtualPorts w in
  (∀ tmp0 w0,
     sVirtualPorts w0 = m → head (phys_in w0) = Some (Some A) →
     delivered (pty chanB) (trace (readThread_body tmp0 w0).2)
     = delivered (pty chanB) (trace w0)) ∧
  (∀ tmp0 w0,
     sVirtualPorts w0 = m → head (phys_in w0) = Some (Some B) →
     delivered (pty chanA) (trace (readThread_body tmp0 w0).2)
     = delivered (pty chanA) (trace w0)) ∧
  route m A = pty chanA ∧ route m B = pty chanB ∧
  (∀ fd, delivered fd (trace w') = delivered fd (trace w) ++ routed m fd fs) ∧
  delivered (pty chanB) (trace w')
  = delivered (pty chanB) (trace w)
    ++ routed m (pty chanB) (filter (fun f => f.1 ≠ A) fs) ∧
  delivered (pty chanA) (trace w')
  = delivered (pty chanA) (trace w)
    ++ routed m (pty chanA) (filter (fun f => f.1 ≠ B) fs).
Proof.
  intros HA HB Hne Hlen Ht Hin. cbn zeta.
  destruct (readThread_loop_frames fs tmp w rest Hlen Ht Hin)
    as (_ & _ & _ & Hd).
  pose proof (route_present _ _ _ HA) as HrA.
  pose proof (route_present _ _ _ HB) as HrB.
  assert (Hturn : ∀ X fd tmp0 w0,
            sVirtualPorts w0 = sVirtualPorts w →
            head (phys_in w0) = Some (Some X) →
            fd ≠ route (sVirtualPorts w) X →
            delivered fd (trace (readThread_body tmp0 w0).2)
            = delivered fd (trace w0)).
  { intros X fd tmp0 w0 Hm Hhead Hfd.
    pose proof (readThread_body_turn tmp0 w0) as Hb. cbn zeta in Hb.
    rewrite Hhead, Hm in Hb. destruct Hb as [_ Hb]. apply Hb, Hfd. }
  split.
  { intros tmp0 w0 Hm Hhead. apply (Hturn A); auto. rewrite HrA. auto. }
  split.
  { intros tmp0 w0 Hm Hhead. apply (Hturn B); auto. rewrite HrB. auto. }
  repeat split; auto.
  - rewrite Hd. f_equal. symmetry. apply routed_filter.
    intros f _ Hf. apply dec_stable in Hf. rewrite Hf, HrA. exact Hne.
  - rewrite Hd. f_equal. symmetry. apply routed_filter.
    intros f _ Hf. apply dec_stable in Hf. rewrite Hf, HrB. auto.
Qed.

Lemma channel_isolation_witness :
  delivered 5
    (trace (readThread_loop 3 0
              (world_example
                 (stream_of [(10, [1; 2]); (20, [3]); (10, [4])]) ∅)))
  = [3] ∧
  delivered 4
    (trace (readThread_loop 3 0
              (world_example
                 (stream_of [(10, [1; 2]); (20, [3]); (10, [4])]) ∅)))
  = [1; 2; 4].
Proof.
  destruct (channel_isolation 10 20
              (mkPtyChan 10 4 "/tmp/ptyA" "/dev/pts/1")
              (mkPtyChan 20 5 "/tmp/ptyB" "/dev/pts/2")
              [(10, [1; 2]); (20, [3]); (10, [4])] 0
              (world_example
                 (stream_of [(10, [1; 2]); (20, [3]); (10, [4])]) ∅)
              [])
    as (_ & _ & _ & _ & _ & HB & HA).
  - reflexivity.
  - reflexivity.
  - simpl. lia.
  - repeat constructor; simpl; lia.
  - reflexivity.
  - rewrite app_nil_r. reflexivity.
  - split; [exact HB | exact HA].
Defined.

(** C4.  Isolation of two registered channels fails as soon as reads come
    back empty inside a payload.  Channels 10 and 20 are registered on
    descriptors 4 and 5.  The peer sends one frame, for channel 10, with the
    five payload bytes 97 20 0 1 88; after the byte 97 four reads return
    nothing before the rest arrives.  The payload loop counts the four
    empty reads as payload (writing 97 each time) and ends its turn with 20
    0 1 88 still in the transport; the next turn takes them for a frame of
    channel 20, and the byte 88 of channel 10's payload is written to
    channel 20's descriptor. *)
Theorem payload_crosses_channels :
  let reads := [Some 10; Some 0; Some 5; Some 97; None; None; None; None;
                Some 20; Some 0; Some 1; Some 88] in
  let w' := readThread_loop 2 0 (world_example reads ∅) in
  omap id reads = encode 10 [97; 20; 0; 1; 88] ∧
  StdMap.find 10 ports_example = Some (mkPtyChan 10 4 "/tmp/ptyA" "/dev/pts/1") ∧
  StdMap.find 20 ports_example = Some (mkPtyChan 20 5 "/tmp/ptyB" "/dev/pts/2") ∧
  delivered 4 (trace w') = [97; 97; 97; 97; 97] ∧
  delivered 5 (trace w') = [88] ∧
  phys_in w' = [].
Proof. cbn zeta. repeat split; vm_compute; reflexivity. Qed.

(** C5.  The payload loop does not look at what its reads return.  Channel
    10 is registered on descriptor 4 and the frame 0x0A 0x00 0x03 'a' 'b'
    'c' arrives with one read coming back empty between 'a' and 'b': the
    loop writes 'a' a second time, stops after three writes, and leaves 'c'
    in the transport, where the next turn takes it for a channel id. *)
Theorem empty_read_repeats_byte :
  delivered 4
    (trace (readThread_body 0
              (world_example
                 [Some 10; Some 0; Some 3; Some 97; None; Some 98; Some 99]
                 ∅)).2)
  = [97; 97; 98] ∧
  phys_in
    (readThread_body 0
       (world_example
          [Some 10; Some 0; Some 3; Some 97; None; Some 98; Some 99] ∅)).2
  = [Some 99].
Proof. split; vm_compute; reflexivity. Qed.

(** ** Start-up and the registry's order *)

(** C6, as the spec states it, fails: the pass does not follow the order of
    registration.  Started with [-c20:/tmp/ptyB -c10:/tmp/ptyA], the
    registry lists channel 10 before channel 20, and a pass polls channel
    10's descriptor (4) before channel 20's (5). *)
Lemma egress_order_is_not_insertion_order :
  ∃ m tty,
    main os_example [Opt_c "20:/tmp/ptyB"; Opt_c "10:/tmp/ptyA"]
         ["/dev/ttyp0"%string] = Engine m tty ∧
    requested_ids [Opt_c "20:/tmp/ptyB"; Opt_c "10:/tmp/ptyA"] = [20; 10] ∧
    StdMap.keys m = [10; 20] ∧
    polled (trace (writeThread_pass [] (mkWorld m false [] [] ∅ [])).2)
    = [route m 10; route m 20] ∧
    polled (trace (writeThread_pass [] (mkWorld m false [] [] ∅ [])).2)
    ≠ route m <$> requested_ids [Opt_c "20:/tmp/ptyB"; Opt_c "10:/tmp/ptyA"].
Proof.
  eexists _, _. split; [vm_compute; reflexivity|].
  repeat split; try (vm_compute; reflexivity).
  vm_compute. discriminate.
Qed.

(** C6, amended.  When [main] starts the threads the registry is in
    ascending order of channel id, whatever the order of the [-c] options,
    and holds exactly the requested ids; a pass of [writeThread] polls the
    descriptors of all entries in that order, leaves the registry as it
    is, and the next pass polls them in the same order again. *)
Theorem egress_order_ascending (os : OS) (opts : list getopt_result)
    (operands : list string) (m : StdMap.t) (tty : Z)
    (buf : list Z) (w : World) :
  main os opts operands = Engine m tty →
  sVirtualPorts w = m →
  terminateProcess w = false →
  let r1 := writeThread_pass buf w in
  let r2 := writeThread_pass r1.1 r1.2 in
  StdMap.ascending m ∧
  (∀ k, k ∈ StdMap.keys m ↔ k ∈ requested_ids opts) ∧
  polled (trace r1.2) = polled (trace w) ++ ((fun e => pty e.2) <$> m) ∧
  sVirtualPorts r1.2 = m ∧
  polled (trace r2.2) = polled (trace r1.2) ++ ((fun e => pty e.2) <$> m).
Proof.
  intros Hmain Hm Ht. cbn zeta.
  destruct (main_engine _ _ _ _ _ Hmain) as [Hasc Hkeys].
  unfold writeThread_pass.
  destruct (writeThread_for_keeps (sVirtualPorts w) buf w Ht)
    as (H1 & H2 & _ & H4).
  cbn zeta in *.
  destruct (writeThread_for (sVirtualPorts w) buf w) as [buf1 w1].
  cbn [fst snd] in *.
  destruct (writeThread_for_keeps (sVirtualPorts w1) buf1 w1 H2)
    as (_ & _ & _ & H8).
  cbn zeta in H8. rewrite H8, H4, H1, Hm. auto.
Qed.

Lemma egress_order_ascending_witness :
  StdMap.keys ports_example = [10; 20] ∧
  polled (trace (writeThread_pass [] (world_example [] ∅)).2) = [4; 5].
Proof.
  destruct (egress_order_ascending os_example
              [Opt_c "20:/tmp/ptyB"; Opt_c "10:/tmp/ptyA"]
              ["/dev/ttyp0"%string] ports_example 3 [] (world_example [] ∅))
    as (_ & _ & H3 & _).
  - vm_compute. reflexivity.
  - reflexivity.
  - reflexivity.
  - split; [reflexivity | exact H3].
Defined.

(** C7, as the spec states it, fails: a second [-c] option with a channel
    id that is already registered is no error.  [main] does not exit; it
    starts the threads with the first entry for channel 10. *)
Lemma duplicate_channel_is_not_fatal :
  main os_example [Opt_c "10:/tmp/ptyA"; Opt_c "10:/tmp/ptyB"]
       ["/dev/ttyp0"%string]
  = Engine [(10, mkPtyChan 10 4 "/tmp/ptyA" "/dev/pts/1")] 3 ∧
  ¬ (∃ code, code ≠ 0 ∧
       main os_example [Opt_c "10:/tmp/ptyA"; Opt_c "10:/tmp/ptyB"]
            ["/dev/ttyp0"%string] = Exited code).
Proof.
  split; [vm_compute; reflexivity|].
  intros (code & _ & H). vm_compute in H. discriminate H.
Qed.

(** C7, amended.  Registering a channel id that an earlier [-c] option has
    already registered changes nothing: the registry keeps the entry made
    first, no error is raised, and [main] ends exactly as it would without
    the repeated option. *)
Theorem duplicate_channel_ignored (os : OS) (before after : list getopt_result)
    (first again : string) (operands : list string) :
  Opt_c first ∈ before →
  atoi again = atoi first →
  main os (before ++ Opt_c again :: after) operands
  = main os (before ++ after) operands.
Proof.
  intros Hin Hid. unfold main. rewrite !parse_options_app.
  destruct (parse_options before StdMap.empty) as [code|m1] eqn:Hp;
    [reflexivity|].
  destruct (parse_options_inr _ _ _ Hp) as (_ & _ & _ & H4).
  destruct (H4 first Hin) as [Hrange [v Hv]].
  cbn [parse_options]. rewrite Hid.
  replace ((atoi first >? cMaxChannelId) || (atoi first <? 0)) with false
    by (symmetry; apply orb_false_iff; lia).
  rewrite (StdMapFacts.emplace_present _ _ _ _ Hv). reflexivity.
Qed.

Lemma duplicate_channel_ignored_witness :
  main os_example [Opt_c "10:/tmp/ptyA"; Opt_c "10:/tmp/ptyB"]
       ["/dev/ttyp0"%string]
  = main os_example [Opt_c "10:/tmp/ptyA"] ["/dev/ttyp0"%string].
Proof.
  apply (duplicate_channel_ignored os_example [Opt_c "10:/tmp/ptyA"] []
           "10:/tmp/ptyA" "10:/tmp/ptyB").
  - apply list_elem_of_singleton. reflexivity.
  - reflexivity.
Defined.

(** ** Egress *)

(** C8.  One frame per pass.  If the pass finds data on the descriptor of
    exactly one entry, channel C, and nothing on the others, then what it
    hands to the transport is one frame in four writes: the byte C, the
    high byte of n, the low byte of n, and the n bytes it has read, where n
    is that read's count (all waiting bytes, at most [cMaxDataSize]). *)
Theorem egress_single_frame (C : Z) (chan : ptyChan) (l1 l2 : StdMap.t)
    (buf : list Z) (w : World) :
  sVirtualPorts w = l1 ++ (C, chan) :: l2 →
  default [] (pty_in w !! pty chan) ≠ [] →
  Forall (fun e : Z * ptyChan => default [] (pty_in w !! pty e.2) = [])
         (l1 ++ l2) →
  let data := take (Z.to_nat cMaxDataSize) (default [] (pty_in w !! pty chan)) in
  let n := Z.of_nat (length data) in
  0 < n ≤ cMaxDataSize ∧
  phys_writes (trace (writeThread_pass buf w).2)
  = phys_writes (trace w) ++ [[C]; [n / 256]; [n mod 256]; data].
Proof.
  intros Hm Hq Hidle. cbn zeta.
  apply Forall_app in Hidle as [Hidle1 Hidle2].
  set (q := default [] (pty_in w !! pty chan)) in *.
  pose proof (read_count_bounds q Hq) as Hk.
  rewrite <- (take_min_length (Z.to_nat cMaxDataSize) q).
  set (k := Nat.min (Z.to_nat cMaxDataSize) (length q)) in *.
  assert (Hlen : length (take k q) = k).
  { rewrite length_take. unfold k. lia. }
  rewrite Hlen. split; [lia|].
  unfold writeThread_pass. rewrite Hm.
  rewrite (writeThread_for_idle_app l1 _ buf w Hidle1).
  cbn [writeThread_for]. rewrite writeThread_step_spec.
  cbn [pty_in trace terminateProcess sVirtualPorts phys_in phys_room].
  fold q. fold k.
  destruct q as [|b q'] eqn:Eq; [congruence|]. rewrite <- Eq in *.
  assert (Hw : phys_writes
                 ((trace w ++ idle_events (pty_in w) l1)
                  ++ frame_events (pty chan) C (take k q) (phys_room w))
               = phys_writes (trace w) ++ [[C]; [Z.of_nat k / 256];
                                           [Z.of_nat k mod 256]; take k q]).
  { rewrite !phys_writes_app, phys_writes_idle_events,
      phys_writes_frame_events, app_nil_r.
    unfold frame_writes. rewrite Hlen.
    unfold cMaxDataSize in Hk.
    destruct (length_bytes_div (Z.of_nat k) ltac:(lia)) as [-> ->].
    reflexivity. }
  destruct (terminateProcess w); [exact Hw|].
  assert (Hidle2' :
    Forall (fun e : Z * ptyChan =>
              default [] (<[pty chan := drop k q]> (pty_in w) !! pty e.2) = [])
           l2).
  { eapply Forall_impl; [exact Hidle2|]. cbn beta. intros e He.
    rewrite lookup_insert_ne; [exact He|].
    intros Heq. rewrite <- Heq in He. fold q in He. congruence. }
  rewrite <- (app_nil_r l2).
  rewrite writeThread_for_idle_app by exact Hidle2'.
  cbn [writeThread_for snd trace].
  rewrite phys_writes_app, phys_writes_idle_events, app_nil_r. exact Hw.
Qed.

(** The scenario of the spec: channels 10 and 20, five bytes waiting on
    channel 10's descriptor, none on channel 20's. *)
Lemma egress_single_frame_witness :
  phys_writes
    (trace (writeThread_pass []
              (world_example [] {[4 := [104; 101; 108; 108; 111]]})).2)
  = [[10]; [0]; [5]; [104; 101; 108; 108; 111]].
Proof.
  destruct (egress_single_frame 10 (mkPtyChan 10 4 "/tmp/ptyA" "/dev/pts/1")
              [] [(20, mkPtyChan 20 5 "/tmp/ptyB" "/dev/pts/2")] []
              (world_example [] {[4 := [104; 101; 108; 108; 111]]}))
    as [_ H].
  - reflexivity.
  - vm_compute. discriminate.
  - repeat constructor.
  - exact H.
Defined.

(** The one write whose count is examined (lines 478-483).  A short write
    of the frame's data is reported and not repeated: when the port takes
    fewer than the n bytes asked for in the fourth write (whatever it
    answered to the three header writes), the step prints the "Write
    failed" line with n and the count returned, has made the four writes of
    the frame and no other, leaves the registry, the flag and the
    transport's input as they were (the bytes read from the descriptor are
    gone), and the pass goes on with the next entry. *)
Theorem short_write_reported (cid : Z) (chan : ptyChan) (next : StdMap.t)
    (buf : list Z) (w : World) (a1 a2 a3 a4 : Z) (room : list Z) :
  default [] (pty_in w !! pty chan) ≠ [] →
  phys_room w = a1 :: a2 :: a3 :: a4 :: room →
  terminateProcess w = false →
  let q := default [] (pty_in w !! pty chan) in
  let data := take (Z.to_nat cMaxDataSize) q in
  let n := Z.of_nat (length data) in
  a4 < n →
  let r := writeThread_step (cid, chan) buf w in
  errors (trace r.2)
  = errors (trace w) ++ [WriteFailed n (if a4 <? 0 then -1 else a4)] ∧
  phys_writes (trace r.2) = phys_writes (trace w) ++ frame_writes cid data ∧
  phys_room r.2 = room ∧
  sVirtualPorts r.2 = sVirtualPorts w ∧
  terminateProcess r.2 = false ∧
  phys_in r.2 = phys_in w ∧
  pty_in r.2 = <[pty chan := drop (length data) q]> (pty_in w) ∧
  writeThread_for ((cid, chan) :: next) buf w
  = writeThread_for next r.1.2 r.2.
Proof.
  intros Hq Hroom Ht. cbn zeta.
  set (q := default [] (pty_in w !! pty chan)) in *.
  pose proof (read_count_bounds q Hq) as Hk.
  rewrite <- (take_min_length (Z.to_nat cMaxDataSize) q).
  set (k := Nat.min (Z.to_nat cMaxDataSize) (length q)) in *.
  assert (Hlen : length (take k q) = k).
  { rewrite length_take. unfold k. lia. }
  rewrite Hlen. intros Ha4.
  cbn [writeThread_for]. rewrite writeThread_step_spec.
  fold q. fold k.
  destruct q as [|b q'] eqn:Eq; [congruence|]. rewrite <- Eq in *.
  cbn [fst snd trace phys_room sVirtualPorts terminateProcess phys_in pty_in].
  rewrite Ht, Hroom.
  assert (Hacc : accepted (a1 :: a2 :: a3 :: a4 :: room) 3 (Z.of_nat k)
                 = if a4 <? 0 then -1 else a4).
  { unfold accepted. cbn. destruct (a4 <? 0); [reflexivity|lia]. }
  repeat split; auto.
  - unfold frame_events. rewrite Hlen, Hacc, !errors_app.
    replace ((if a4 <? 0 then -1 else a4) =? Z.of_nat k) with false
      by (destruct (a4 <? 0) eqn:E; lia).
    cbn. reflexivity.
  - rewrite phys_writes_app, phys_writes_frame_events. reflexivity.
Qed.

(** Five bytes wait on channel 10's descriptor; the port takes the three
    header bytes but only two bytes of the data. *)
Lemma short_write_reported_witness :
  errors
    (trace (writeThread_step (10, mkPtyChan 10 4 "/tmp/ptyA" "/dev/pts/1") []
              (mkWorld ports_example false [] [1; 1; 1; 2]
                       {[4 := [104; 101; 108; 108; 111]]} [])).2)
  = [WriteFailed 5 2].
Proof.
  destruct (short_write_reported 10 (mkPtyChan 10 4 "/tmp/ptyA" "/dev/pts/1")
              [] []
              (mkWorld ports_example false [] [1; 1; 1; 2]
                       {[4 := [104; 101; 108; 108; 111]]} [])
              1 1 1 2 [])
    as [H _].
  - vm_compute. discriminate.
  - reflexivity.
  - reflexivity.
  - vm_compute. reflexivity.
  - exact H.
Defined.

(** C9.  A write of a header byte that fails or takes nothing is not
    reported.  Five bytes wait on channel 10's descriptor.  In the first
    run the port refuses the write of the channel id (-1) and takes the two
    length bytes and the data in full; in the second it takes the channel
    id, nothing of the high length byte, and the rest in full.  Either way
    the step makes its four writes, prints no error line and goes on: the
    receiver is sent a frame that lacks a header byte and nothing records
    it. *)
Theorem failed_header_write_unreported :
  let entry := (10, mkPtyChan 10 4 "/tmp/ptyA" "/dev/pts/1") in
  let hello := [104; 101; 108; 108; 111] in
  let run room :=
    writeThread_step entry []
      (mkWorld ports_example false [] room {[4 := hello]} []) in
  trace (run [-1; 1; 1; 5]).2
  = [PtyRead 4 5 hello; PhysWrite [10] (-1); PhysWrite [0] 1; PhysWrite [5] 1;
     PhysWrite hello 5] ∧
  errors (trace (run [-1; 1; 1; 5]).2) = [] ∧
  trace (run [1; 0; 1; 5]).2
  = [PtyRead 4 5 hello; PhysWrite [10] 1; PhysWrite [0] 0; PhysWrite [5] 1;
     PhysWrite hello 5] ∧
  errors (trace (run [1; 0; 1; 5]).2) = [] ∧
  (run [-1; 1; 1; 5]).1.1 = false.
Proof. cbn zeta. repeat split; vm_compute; reflexivity. Qed.

Lemma frames_added_refl t t' :
  phys_writes t' = phys_writes t → frames_added t t'.
Proof. intros H. exists []. rewrite H, app_nil_r. split; [reflexivity|constructor]. Qed.

Lemma frames_added_trans t1 t2 t3 :
  frames_added t1 t2 → frames_added t2 t3 → frames_added t1 t3.
Proof.
  intros (f1 & H1 & F1) (f2 & H2 & F2). exists (f1 ++ f2). split.
  - rewrite H2, H1, bind_app, app_assoc. reflexivity.
  - apply Forall_app. auto.
Qed.

Lemma writeThread_step_frames entry buf w :
  frames_added (trace w) (trace (writeThread_step entry buf w).2).
Proof.
  destruct entry as [cid chan]. rewrite writeThread_step_spec.
  destruct (default [] (pty_in w !! pty chan)) as [|b q] eqn:Hq;
    cbn [snd trace].
  - apply frames_added_refl. rewrite phys_writes_app. cbn.
    rewrite app_nil_r. reflexivity.
  - pose proof (read_count_bounds (b :: q) ltac:(congruence)) as Hk.
    set (k := Nat.min (Z.to_nat cMaxDataSize) (length (b :: q))) in *.
    exists [(cid, take k (b :: q))]. split.
    + rewrite phys_writes_app, phys_writes_frame_events. cbn.
      reflexivity.
    + constructor; [|constructor]. cbn [snd].
      rewrite length_take. fold k.
      replace (Nat.min k (length (b :: q))) with k by (unfold k; lia).
      exact Hk.
Qed.

Lemma writeThread_for_frames m : ∀ buf w,
  frames_added (trace w) (trace (writeThread_for m buf w).2).
Proof.
  induction m as [|e m IH]; intros buf w; cbn [writeThread_for].
  - apply frames_added_refl. reflexivity.
  - pose proof (writeThread_step_frames e buf w) as Hs.
    destruct (writeThread_step e buf w) as [[brk buf'] w']. cbn [snd] in Hs.
    destruct brk; [exact Hs|].
    eapply frames_added_trans; [exact Hs | apply IH].
Qed.

Lemma writeThread_loop_frames passes : ∀ buf w,
  frames_added (trace w) (trace (writeThread_loop passes buf w)).
Proof.
  induction passes as [|passes IH]; intros buf w; cbn [writeThread_loop].
  - apply frames_added_refl. reflexivity.
  - destruct (terminateProcess w).
    + apply frames_added_refl. cbn. rewrite phys_writes_app. cbn.
      rewrite app_nil_r. reflexivity.
    + pose proof (writeThread_for_frames (sVirtualPorts w) buf w) as Hp.
      unfold writeThread_pass.
      destruct (writeThread_for (sVirtualPorts w) buf w) as [buf' w'].
      eapply frames_added_trans; [exact Hp | apply IH].
Qed.

(** C10.  Whatever [writeThread] hands to the transport, over any number of
    passes and whatever its reads return (data, 0 at end of file, -1 when
    nothing waits), is a sequence of whole frames whose data has between 1
    and [cMaxDataSize] bytes, that count being the declared length; and a
    step whose read of the descriptor returns less than 1, be it 0 or -1,
    hands the transport nothing at all. *)
Theorem egress_frame_lengths (passes : nat) (buf : list Z) (w : World)
    (entry : Z * ptyChan) (buf' : list Z) (w' : World) :
  frames_added (trace w) (trace (writeThread passes buf w)) ∧
  ((read_pty (pty entry.2) cMaxDataSize buf' w').1.1 < 1 →
   phys_writes (trace (writeThread_step entry buf' w').2)
   = phys_writes (trace w')).
Proof.
  split.
  - unfold writeThread.
    eapply frames_added_trans; [|apply writeThread_loop_frames].
    apply frames_added_refl. cbn. rewrite phys_writes_app. cbn.
    rewrite app_nil_r. reflexivity.
  - destruct entry as [cid chan]. cbn [snd]. intros Hread.
    unfold writeThread_step.
    destruct (read_pty (pty chan) cMaxDataSize buf' w') as [[tmp b] w1] eqn:Hr.
    cbn [fst] in Hread.
    replace (tmp <? 1) with true by lia.
    cbn [snd trace emit]. rewrite phys_writes_app. cbn.
    rewrite app_nil_r.
    unfold read_pty in Hr.
    destruct (default [] (pty_in w' !! pty chan)) as [|x q].
    + injection Hr as _ _ <-. cbn. rewrite phys_writes_app. cbn.
      rewrite app_nil_r. reflexivity.
    + injection Hr as <- _ _.
      pose proof (read_count_bounds (x :: q) ltac:(congruence)). lia.
Qed.

(** Channel 20's descriptor is at end of file in the first world, so that
    its read returns 0, and open with nothing waiting in the second, so
    that its read returns -1: in both its step writes nothing. *)
Lemma egress_frame_lengths_witness :
  frames_added []
    (trace (writeThread 2 []
              (world_example [] {[4 := [104; 101; 108; 108; 111]]}))) ∧
  ((read_pty 5 cMaxDataSize []
      (world_example [] {[4 := [104; 101; 108; 108; 111]]})).1.1 = 0 ∧
   phys_writes
     (trace (writeThread_step (20, mkPtyChan 20 5 "/tmp/ptyB" "/dev/pts/2") []
               (world_example [] {[4 := [104; 101; 108; 108; 111]]})).2)
   = []) ∧
  ((read_pty 5 cMaxDataSize []
      (world_example [] {[4 := [104; 101; 108; 108; 111]; 5 := []]})).1.1 = -1 ∧
   phys_writes
     (trace (writeThread_step (20, mkPtyChan 20 5 "/tmp/ptyB" "/dev/pts/2") []
               (world_example [] {[4 := [104; 101; 108; 108; 111];
                                   5 := []]})).2)
   = []).
Proof.
  destruct (egress_frame_lengths 2 []
              (world_example [] {[4 := [104; 101; 108; 108; 111]]})
              (20, mkPtyChan 20 5 "/tmp/ptyB" "/dev/pts/2") []
              (world_example [] {[4 := [104; 101; 108; 108; 111]]}))
    as [H1 H2].
  destruct (egress_frame_lengths 0 [] (world_example [] ∅)
              (20, mkPtyChan 20 5 "/tmp/ptyB" "/dev/pts/2") []
              (world_example [] {[4 := [104; 101; 108; 108; 111]; 5 := []]}))
    as [_ H3].
  split; [exact H1|]. split.
  - split; [vm_compute; reflexivity|]. apply H2. vm_compute. reflexivity.
  - split; [vm_compute; reflexivity|]. apply H3. vm_compute. reflexivity.
Defined.

(** * Further properties of the code *)

(** ** [main]: which command lines start the engine *)

Lemma parse_options_accepted opts : ∀ m0,
  Forall accepted_option opts → ∃ m, parse_options opts m0 = inr m.
Proof.
  induction opts as [|o opts IH]; intros m0 Hacc.
  - exists m0. reflexivity.
  - apply Forall_cons in Hacc as [Ho Hacc].
    destruct o as [optarg| |]; cbn in Ho; try contradiction.
    cbn [parse_options].
    replace ((atoi optarg >? cMaxChannelId) || (atoi optarg <? 0)) with false
      by (symmetry; apply orb_false_iff; lia).
    apply IH, Hacc.
Qed.

Lemma parse_options_nonempty opts m :
  opts ≠ [] → parse_options opts StdMap.empty = inr m → m ≠ [].
Proof.
  intros Hne Hp. destruct (parse_options_inr _ _ _ Hp) as (_ & _ & _ & H4).
  destruct opts as [|o opts]; [congruence|].
  destruct o as [optarg| |]; cbn [parse_options] in Hp; try discriminate.
  destruct (H4 optarg ltac:(left)) as [_ [v Hv]].
  intros ->. discriminate Hv.
Qed.

(** The option loop keeps an entry once it is made. *)
Lemma parse_options_keeps_entry opts : ∀ m0 m k v,
  parse_options opts m0 = inr m →
  StdMap.find k m0 = Some v → StdMap.find k m = Some v.
Proof.
  induction opts as [|[optarg| |] opts IH]; intros m0 m k v Hp Hf;
    cbn [parse_options] in Hp; try discriminate.
  - injection Hp as <-. exact Hf.
  - destruct ((atoi optarg >? cMaxChannelId) || (atoi optarg <? 0));
      [discriminate|].
    apply (IH _ _ _ _ Hp).
    destruct (decide (k = atoi optarg)) as [->|Hne].
    + rewrite StdMapFacts.find_emplace_eq, Hf. reflexivity.
    + rewrite StdMapFacts.find_emplace_ne by exact Hne. exact Hf.
Qed.


Lemma emplace_Forall (P : Z * ptyChan → Prop) k v m :
  Forall P m → P (k, v) → Forall P (StdMap.emplace k v m).
Proof.
  intros Hm Hkv. induction m as [|[k1 v1] m IH]; cbn [StdMap.emplace].
  - constructor; [exact Hkv | constructor].
  - apply Forall_cons in Hm as [H1 Hm].
    destruct (k <? k1); [constructor; [exact Hkv | constructor; assumption]|].
    destruct (k =? k1); constructor; auto.
Qed.

Lemma parse_options_fresh opts : ∀ m0 m,
  parse_options opts m0 = inr m → Forall fresh_entry m0 → Forall fresh_entry m.
Proof.
  induction opts as [|[optarg| |] opts IH]; intros m0 m Hp Hm0;
    cbn [parse_options] in Hp; try discriminate.
  - injection Hp as <-. exact Hm0.
  - destruct ((atoi optarg >? cMaxChannelId) || (atoi optarg <? 0)) eqn:Hr;
      [discriminate|].
    apply orb_false_iff in Hr as [Hr1 Hr2].
    apply (IH _ _ Hp), emplace_Forall; [exact Hm0|].
    unfold fresh_entry. cbn. repeat split; lia.
Qed.

Lemma startPty_started os k chan chan' :
  fresh_entry (k, chan) → startPty os chan = (0, chan') →
  started_entry os (k, chan') ∧ linkPath chan' = linkPath chan.
Proof.
  intros (Hid & _ & _ & Hk) Hs. cbn [fst snd] in *.
  unfold startPty in Hs. rewrite Hid in Hs.
  destruct (os_posix_openpt os k =? -1) eqn:Hfd.
  { discriminate Hs. }
  cbn [linkPath channelId] in Hs.
  destruct (0 <? String.length (linkPath chan))%nat eqn:Hl.
  - injection Hs as Hrv <-. unfold started_entry. cbn.
    repeat split; auto; lia.
  - injection Hs as <-. unfold started_entry. cbn.
    repeat split; auto; try lia.
    intros Hlen. apply Nat.ltb_ge in Hl. lia.
Qed.

Lemma start_ports_started os m0 : ∀ m,
  Forall fresh_entry m0 → start_ports os m0 = Some m →
  Forall (started_entry os) m ∧
  ∀ k v, StdMap.find k m0 = Some v →
         ∃ v', StdMap.find k m = Some v' ∧ linkPath v' = linkPath v.
Proof.
  induction m0 as [|[k chan] m0 IH]; intros m Hf Hs; cbn [start_ports] in Hs.
  - injection Hs as <-. split; [constructor|]. intros k v H. discriminate H.
  - apply Forall_cons in Hf as [Hf1 Hf].
    destruct (startPty os chan) as [rv chan'] eqn:Hp.
    destruct (rv =? 0) eqn:Hrv; [|discriminate]. cbn [negb] in Hs.
    assert (rv = 0) as -> by lia.
    destruct (start_ports os m0) as [m1|] eqn:Hm1; [|discriminate].
    injection Hs as <-.
    destruct (IH m1 Hf eq_refl) as [I1 I2].
    destruct (startPty_started _ _ _ _ Hf1 Hp) as [S1 S2].
    split; [constructor; assumption|].
    intros k' v. cbn [StdMap.find].
    destruct (k' <? k); [discriminate|].
    destruct (k' =? k).
    + intros H. injection H as <-. eauto.
    + apply I2.
Qed.

Lemma parse_options_inr_accepted opts : ∀ m0 m,
  parse_options opts m0 = inr m → Forall accepted_option opts.
Proof.
  induction opts as [|[optarg| |] opts IH]; intros m0 m Hp;
    cbn [parse_options] in Hp; try discriminate; [constructor|].
  destruct ((atoi optarg >? cMaxChannelId) || (atoi optarg <? 0)) eqn:Hr;
    [discriminate|].
  apply orb_false_iff in Hr as [Hr1 Hr2].
  constructor; [cbn; lia | exact (IH _ _ Hp)].
Qed.

(** X1.  A channel id outside 0..255 ends [main] with [EXIT_FAILURE] as
    soon as the option loop reaches it, whatever options follow and whatever
    the operating system would answer. *)
Theorem main_rejects_bad_channel_id (os : OS)
    (before after : list getopt_result) (optarg : string)
    (operands : list string) :
  Forall accepted_option before →
  ¬ (0 ≤ atoi optarg ≤ cMaxChannelId) →
  main os (before ++ Opt_c optarg :: after) operands = Exited EXIT_FAILURE.
Proof.
  intros Hacc Hbad. unfold main. rewrite parse_options_app.
  destruct (parse_options_accepted before StdMap.empty Hacc) as [m ->].
  cbn [parse_options].
  replace ((atoi optarg >? cMaxChannelId) || (atoi optarg <? 0)) with true;
    [reflexivity|].
  symmetry. apply orb_true_iff. lia.
Qed.

Lemma main_rejects_bad_channel_id_witness :
  main os_example [Opt_c "10:/tmp/ptyA"; Opt_c "256:/tmp/ptyB"; Opt_h]
       ["/dev/ttyp0"%string]
  = Exited EXIT_FAILURE ∧
  main os_example [Opt_c "-5"] ["/dev/ttyp0"%string] = Exited EXIT_FAILURE.
Proof.
  split.
  - apply (main_rejects_bad_channel_id os_example [Opt_c "10:/tmp/ptyA"]
             [Opt_h] "256:/tmp/ptyB").
    + repeat constructor; vm_compute; discriminate.
    + vm_compute. intros [_ H]. apply H. reflexivity.
  - apply (main_rejects_bad_channel_id os_example [] [] "-5").
    + constructor.
    + vm_compute. intros [H _]. apply H. reflexivity.
Defined.

(** X2.  [-h], and equally any option [getopt] does not know, ends [main]
    with [EXIT_SUCCESS] when the options before it were accepted: the
    [default:] case shares the [return] of [-h], so a misspelt option is
    not reported as a failure, and nothing is opened. *)
Theorem main_help_exits_success (os : OS)
    (before after : list getopt_result) (o : getopt_result)
    (operands : list string) :
  Forall accepted_option before →
  o = Opt_h ∨ o = Opt_unknown →
  main os (before ++ o :: after) operands = Exited EXIT_SUCCESS.
Proof.
  intros Hacc Ho. unfold main. rewrite parse_options_app.
  destruct (parse_options_accepted before StdMap.empty Hacc) as [m ->].
  destruct Ho as [-> | ->]; reflexivity.
Qed.

Lemma main_help_exits_success_witness :
  main os_example [Opt_c "10:/tmp/ptyA"; Opt_unknown; Opt_c "999"] []
  = Exited EXIT_SUCCESS.
Proof.
  apply (main_help_exits_success os_example [Opt_c "10:/tmp/ptyA"]
           [Opt_c "999"] Opt_unknown []).
  - repeat constructor; vm_compute; discriminate.
  - right. reflexivity.
Defined.

(** X3.  When [main] starts the two threads, every option was a [-c] with
    an id in 0..255, the registry is not empty, the serial port named by the
    first operand is open and configured, and every registry entry has its
    key as channel id, an open pseudo-tty of its own request, the name the
    system gave that pseudo-tty, and, if a link path was given, a symlink
    that was created without error. *)
Theorem main_engine_postcondition (os : OS) (opts : list getopt_result)
    (operands : list string) (m : StdMap.t) (tty : Z) :
  main os opts operands = Engine m tty →
  Forall accepted_option opts ∧
  m ≠ [] ∧
  Forall (started_entry os) m ∧
  ∃ path rest, operands = path :: rest ∧ tty = os_open os path ∧
               0 ≤ tty ∧ os_tcsetattr os tty = 0.
Proof.
  unfold main. intros H.
  destruct (parse_options opts StdMap.empty) as [code|m0] eqn:Hp;
    [discriminate|].
  destruct (StdMap.size m0 <? 1) eqn:Hsize; [discriminate|].
  destruct operands as [|path rest]; [discriminate|].
  unfold openPysicalPort, configurePort in H.
  destruct (os_open os path <? 0) eqn:Hopen; [discriminate|].
  destruct (os_tcsetattr os (os_open os path) =? 0) eqn:Hcfg;
    [|discriminate].
  cbn [negb] in H. change (negb (0 =? 0)) with false in H. cbv iota in H.
  destruct (start_ports os m0) as [m1|] eqn:Hs; [|discriminate].
  injection H as <- <-.
  pose proof (parse_options_fresh _ _ _ Hp ltac:(constructor)) as Hfresh.
  destruct (start_ports_started os m0 m1 Hfresh Hs) as [Hstarted _].
  split; [exact (parse_options_inr_accepted _ _ _ Hp)|].
  split.
  { intros ->. destruct m0 as [|e m0]; [discriminate Hsize|].
    destruct e as [k c]. cbn [start_ports] in Hs.
    destruct (startPty os c) as [rv c']. destruct (negb (rv =? 0));
      [discriminate|].
    destruct (start_ports os m0); discriminate. }
  split; [exact Hstarted|].
  exists path, rest. repeat split; lia.
Qed.

Lemma main_engine_postcondition_witness :
  Forall (started_entry os_example) ports_example.
Proof.
  destruct (main_engine_postcondition os_example
              [Opt_c "10:/tmp/ptyA"; Opt_c "20:/tmp/ptyB"]
              ["/dev/ttyp0"%string] ports_example 3)
    as (_ & _ & H & _).
  - vm_compute. reflexivity.
  - exact H.
Defined.

(** X4.  When the same channel id is given more than once, the channel the
    engine runs with is the one of the first [-c]: the entry found under
    that id carries the link path of the first option that named the id. *)
Theorem first_registration_wins (os : OS)
    (before after : list getopt_result) (optarg : string)
    (operands : list string) (m : StdMap.t) (tty : Z) :
  (∀ a, Opt_c a ∈ before → atoi a ≠ atoi optarg) →
  main os (before ++ Opt_c optarg :: after) operands = Engine m tty →
  ∃ chan, StdMap.find (atoi optarg) m = Some chan ∧
          linkPath chan = default EmptyString (after_colon optarg).
Proof.
  intros Hnew Hmain. unfold main in Hmain.
  destruct (parse_options (before ++ Opt_c optarg :: after) StdMap.empty)
    as [code|m0] eqn:Hp; [discriminate|].
  destruct (StdMap.size m0 <? 1); [discriminate|].
  destruct operands as [|path rest]; [discriminate|].
  destruct (openPysicalPort os path) as [rv t].
  destruct (negb (rv =? 0)); [discriminate|].
  destruct (start_ports os m0) as [m1|] eqn:Hs; [|discriminate].
  injection Hmain as <- <-.
  pose proof (parse_options_fresh _ _ _ Hp ltac:(constructor)) as Hfresh.
  rewrite parse_options_app in Hp.
  destruct (parse_options before StdMap.empty) as [code|mb] eqn:Hb;
    [discriminate|].
  cbn [parse_options] in Hp.
  destruct ((atoi optarg >? cMaxChannelId) || (atoi optarg <? 0));
    [discriminate|].
  assert (Hnone : StdMap.find (atoi optarg) mb = None).
  { destruct (StdMap.find (atoi optarg) mb) as [v|] eqn:Hf; [|reflexivity].
    exfalso. apply StdMapFacts.find_Some_keys in Hf.
    destruct (parse_options_inr _ _ _ Hb) as (_ & Hkeys & _).
    apply Hkeys in Hf as [Hf|Hf]; [inversion Hf|].
    unfold requested_ids in Hf. apply list_elem_of_bind in Hf as (o & Ho & Hin).
    destruct o as [a| |]; try (inversion Ho; fail).
    apply list_elem_of_singleton in Ho. exact (Hnew a Hin (eq_sym Ho)). }
  pose proof (StdMapFacts.find_emplace_eq (atoi optarg)
                (mkPtyChan (atoi optarg) (-1)
                   (default EmptyString (after_colon optarg)) EmptyString) mb)
    as Hput.
  rewrite Hnone in Hput. cbn [default] in Hput.
  pose proof (parse_options_keeps_entry _ _ _ _ _ Hp Hput) as Hkept.
  destruct (start_ports_started os m0 m1 Hfresh Hs) as [_ Hfind].
  destruct (Hfind _ _ Hkept) as (v' & Hv' & Hlink).
  exists v'. split; [exact Hv' | exact Hlink].
Qed.

Lemma first_registration_wins_witness :
  ∃ chan,
    StdMap.find 10
      match main os_example [Opt_c "10:/tmp/ptyA"; Opt_c "10:/tmp/ptyB"]
                 ["/dev/ttyp0"%string] with
      | Engine m _ => m
      | Exited _ => []
      end = Some chan ∧
    linkPath chan = "/tmp/ptyA"%string.
Proof.
  destruct (first_registration_wins os_example [] [Opt_c "10:/tmp/ptyB"]
              "10:/tmp/ptyA" ["/dev/ttyp0"%string]
              [(10, mkPtyChan 10 4 "/tmp/ptyA" "/dev/pts/1")] 3)
    as (chan & Hf & Hl).
  - intros a Ha. inversion Ha.
  - vm_compute. reflexivity.
  - exists chan. split; [exact Hf | exact Hl].
Defined.

(** X5.  With no [-c] option at all, or with no operand to name the serial
    port, [main] ends with [EXIT_FAILURE], without asking the operating
    system for anything. *)
Theorem main_missing_arguments (os : OS) (opts : list getopt_result)
    (operands : list string) :
  Forall accepted_option opts →
  opts = [] ∨ operands = [] →
  main os opts operands = Exited EXIT_FAILURE.
Proof.
  intros Hacc Hmiss. unfold main.
  destruct (parse_options_accepted opts StdMap.empty Hacc) as [m Hp].
  rewrite Hp.
  destruct Hmiss as [-> | ->].
  - cbn in Hp. injection Hp as <-. reflexivity.
  - destruct (StdMap.size m <? 1); reflexivity.
Qed.

Lemma main_missing_arguments_witness :
  main os_example [Opt_c "10:/tmp/ptyA"] [] = Exited EXIT_FAILURE.
Proof.
  apply (main_missing_arguments os_example [Opt_c "10:/tmp/ptyA"] []).
  - repeat constructor; vm_compute; discriminate.
  - right. reflexivity.
Defined.

Lemma start_ports_all_open os m0 : ∀ m,
  Forall fresh_entry m0 → start_ports os m0 = Some m →
  ∀ k, k ∈ StdMap.keys m0 → os_posix_openpt os k ≠ -1.
Proof.
  intros m Hf Hs k Hk.
  destruct (start_ports_started os m0 m Hf Hs) as [Hst _].
  rewrite <- (start_ports_keys _ _ _ Hs) in Hk.
  unfold StdMap.keys in Hk. apply list_elem_of_fmap in Hk as ([k' c] & -> & Hin).
  rewrite Forall_forall in Hst.
  destruct (Hst _ Hin) as (_ & _ & Hpty & Hopen & _). cbn [fst snd] in *.
  congruence.
Qed.

(** X6.  [main] ends with [EXIT_FAILURE] when the serial port cannot be
    opened or configured, and when the system has no pseudo-tty for one of
    the requested channels, wherever that channel stands among the
    options. *)
Theorem main_os_failure (os : OS) (opts : list getopt_result)
    (path : string) (rest : list string) :
  Forall accepted_option opts →
  os_open os path < 0 ∨
  os_tcsetattr os (os_open os path) ≠ 0 ∨
  (∃ optarg, Opt_c optarg ∈ opts ∧ os_posix_openpt os (atoi optarg) = -1) →
  main os opts (path :: rest) = Exited EXIT_FAILURE.
Proof.
  intros Hacc Hfail. unfold main.
  destruct (parse_options_accepted opts StdMap.empty Hacc) as [m Hp].
  rewrite Hp.
  destruct (StdMap.size m <? 1); [reflexivity|].
  unfold openPysicalPort, configurePort.
  destruct (os_open os path <? 0) eqn:Hopen; [reflexivity|].
  destruct (os_tcsetattr os (os_open os path) =? 0) eqn:Hcfg;
    cbn [negb]; [|reflexivity].
  change (negb (0 =? 0)) with false. cbv iota.
  destruct (start_ports os m) as [m1|] eqn:Hs; [|reflexivity].
  exfalso. destruct Hfail as [H|[H|(a & Ha & Hpt)]]; [lia | lia |].
  pose proof (parse_options_fresh _ _ _ Hp ltac:(constructor)) as Hfresh.
  apply (start_ports_all_open os m m1 Hfresh Hs (atoi a)); [|exact Hpt].
  destruct (parse_options_inr _ _ _ Hp) as (_ & Hkeys & _).
  apply Hkeys. right. unfold requested_ids.
  apply list_elem_of_bind. exists (Opt_c a). split; [|exact Ha].
  apply list_elem_of_singleton. reflexivity.
Qed.

Lemma main_os_failure_witness :
  main (mkOS (fun _ => 3) (fun _ => 0) (fun cid => if cid =? 20 then -1 else 4)
             (fun _ => "/dev/pts/1"%string) (fun _ _ => 0))
       [Opt_c "20:/tmp/ptyB"; Opt_c "10:/tmp/ptyA"] ["/dev/ttyp0"%string]
  = Exited EXIT_FAILURE.
Proof.
  apply main_os_failure.
  - repeat constructor; vm_compute; discriminate.
  - right. right. exists "20:/tmp/ptyB"%string. split; [|reflexivity].
    left.
Defined.

(** ** Option arguments: [atoi] and the colon *)

Lemma digit_char_facts (d : nat) (s : string) :
  (d < 10)%nat →
  digit_of (digit_char d) = Some (Z.of_nat d) ∧
  strtol (String (digit_char d) s)
  = Z.max LONG_MIN (Z.min LONG_MAX (atoi_digits 0 (String (digit_char d) s))) ∧
  after_colon (String (digit_char d) s) = after_colon s.
Proof.
  intros Hd.
  do 10 (destruct d as [|d]; [repeat split; reflexivity|]). lia.
Qed.

Lemma atoi_digits_numeral ds : ∀ acc tail,
  Forall (fun d => d < 10)%nat ds →
  atoi_digits acc (numeral ds tail)
  = atoi_digits (fold_left (fun a d => 10 * a + Z.of_nat d) ds acc) tail.
Proof.
  induction ds as [|d ds IH]; intros acc tail Hds; [reflexivity|].
  apply Forall_cons in Hds as [Hd Hds].
  cbn [numeral atoi_digits fold_left].
  destruct (digit_char_facts d EmptyString Hd) as (-> & _ & _).
  apply IH, Hds.
Qed.

Lemma after_colon_numeral ds tail :
  Forall (fun d => d < 10)%nat ds →
  after_colon (numeral ds tail) = after_colon tail.
Proof.
  induction ds as [|d ds IH]; intros Hds; [reflexivity|].
  apply Forall_cons in Hds as [Hd Hds]. cbn [numeral].
  destruct (digit_char_facts d (numeral ds tail) Hd) as (_ & _ & ->).
  apply IH, Hds.
Qed.

Lemma strtol_numeral ds tail :
  Forall (fun d => d < 10)%nat ds →
  tail = EmptyString ∨ (∃ link, tail = String ":" link) →
  strtol (numeral ds tail) = Z.max LONG_MIN (Z.min LONG_MAX (numeral_value ds)).
Proof.
  intros Hds Htail. unfold numeral_value.
  destruct ds as [|d ds].
  - destruct Htail as [-> | [link ->]]; reflexivity.
  - pose proof Hds as Hds'. apply Forall_cons in Hds' as [Hd _].
    cbn [numeral].
    destruct (digit_char_facts d (numeral ds tail) Hd) as (_ & -> & _).
    change (String (digit_char d) (numeral ds tail))
      with (numeral (d :: ds) tail).
    rewrite atoi_digits_numeral by exact Hds.
    destruct Htail as [-> | [link ->]]; reflexivity.
Qed.

Lemma numeral_value_nonneg ds : 0 ≤ numeral_value ds.
Proof.
  unfold numeral_value.
  assert (Hpos : ∀ l acc, 0 ≤ acc →
            0 ≤ fold_left (fun a d => 10 * a + Z.of_nat d) l acc).
  { induction l as [|d l IH]; intros acc Hacc; cbn; [exact Hacc|].
    apply IH. lia. }
  apply Hpos. lia.
Qed.

(** A numeral within the range of [long] is taken modulo 2^32, as a signed
    32-bit value. *)
Lemma atoi_numeral_wraps ds tail :
  Forall (fun d => d < 10)%nat ds →
  tail = EmptyString ∨ (∃ link, tail = String ":" link) →
  numeral_value ds ≤ LONG_MAX →
  atoi (numeral ds tail) = to_int (numeral_value ds).
Proof.
  intros Hds Htail Hmax. unfold atoi.
  rewrite strtol_numeral by assumption.
  pose proof (numeral_value_nonneg ds).
  rewrite Z.min_r by exact Hmax.
  rewrite Z.max_r by (unfold LONG_MIN; lia). reflexivity.
Qed.

Lemma atoi_numeral ds tail :
  Forall (fun d => d < 10)%nat ds →
  tail = EmptyString ∨ (∃ link, tail = String ":" link) →
  numeral_value ds ≤ cMaxChannelId →
  atoi (numeral ds tail) = numeral_value ds.
Proof.
  intros Hds Htail Hmax.
  pose proof (numeral_value_nonneg ds).
  unfold cMaxChannelId in Hmax.
  rewrite atoi_numeral_wraps by (try assumption; unfold LONG_MAX; lia).
  unfold to_int. rewrite Z.mod_small by lia. lia.
Qed.

(** The numeral 4294967306 is 2^32 + 10: [atoi] gives 10 and the option
    registers channel 10. *)
Lemma atoi_wraps_example :
  atoi "4294967306:/tmp/ptyA" = 10 ∧
  parse_options [Opt_c "4294967306:/tmp/ptyA"] StdMap.empty
  = inr [(10, mkPtyChan 10 (-1) "/tmp/ptyA" EmptyString)].
Proof. split; vm_compute; reflexivity. Qed.

(** X7.  An option argument written [id:link], with [id] a decimal numeral
    of value at most 255, registers channel [id] with link path [link]
    (everything after the first colon); written [id] alone it registers the
    channel with an empty link path.  The entry has no descriptor yet. *)
Theorem option_argument_id_and_link (ds : list nat) (link : string) :
  Forall (fun d => d < 10)%nat ds →
  numeral_value ds ≤ cMaxChannelId →
  parse_options [Opt_c (numeral ds (String ":" link))] StdMap.empty
  = inr [(numeral_value ds,
          mkPtyChan (numeral_value ds) (-1) link EmptyString)] ∧
  parse_options [Opt_c (numeral ds EmptyString)] StdMap.empty
  = inr [(numeral_value ds,
          mkPtyChan (numeral_value ds) (-1) EmptyString EmptyString)].
Proof.
  intros Hds Hmax.
  assert (Hpos : ∀ l acc, 0 ≤ acc →
            0 ≤ fold_left (fun a d => 10 * a + Z.of_nat d) l acc).
  { induction l as [|d l IH]; intros acc Hacc; cbn; [exact Hacc|].
    apply IH. lia. }
  pose proof (Hpos ds 0 ltac:(lia)) as Hv. fold (numeral_value ds) in Hv.
  split; cbn [parse_options].
  - rewrite atoi_numeral by eauto.
    rewrite after_colon_numeral by exact Hds.
    replace ((numeral_value ds >? cMaxChannelId) || (numeral_value ds <? 0))
      with false by (symmetry; apply orb_false_iff; lia).
    reflexivity.
  - rewrite atoi_numeral by eauto.
    rewrite after_colon_numeral by exact Hds.
    replace ((numeral_value ds >? cMaxChannelId) || (numeral_value ds <? 0))
      with false by (symmetry; apply orb_false_iff; lia).
    reflexivity.
Qed.

Lemma option_argument_id_and_link_witness :
  parse_options [Opt_c "10:/tmp/ptyA"] StdMap.empty
  = inr [(10, mkPtyChan 10 (-1) "/tmp/ptyA" EmptyString)].
Proof.
  destruct (option_argument_id_and_link [1; 0]%nat "/tmp/ptyA") as [H _].
  - repeat constructor.
  - vm_compute. discriminate.
  - exact H.
Defined.

(** X8.  An option argument that does not begin with white space, a sign or
    a digit is not rejected: [atoi] gives 0, and the option registers
    channel 0. *)
Theorem non_numeric_id_is_channel_zero (c : ascii) (s : string) :
  isspace c = false →
  digit_of c = None →
  c ≠ "-"%char → c ≠ "+"%char →
  atoi (String c s) = 0 ∧
  parse_options [Opt_c (String c s)] StdMap.empty
  = inr [(0, mkPtyChan 0 (-1)
                (default EmptyString (after_colon (String c s))) EmptyString)].
Proof.
  intros Hsp Hdig Hminus Hplus.
  assert (Hatoi : atoi (String c s) = 0).
  { unfold atoi, strtol. cbn [skip_spaces]. rewrite Hsp.
    destruct c as [[] [] [] [] [] [] [] []];
      try reflexivity; try discriminate Hdig;
      try (exfalso; apply Hminus; reflexivity);
      exfalso; apply Hplus; reflexivity. }
  split; [exact Hatoi|].
  cbn [parse_options]. rewrite Hatoi. reflexivity.
Qed.

Lemma non_numeric_id_is_channel_zero_witness :
  parse_options [Opt_c "A:/tmp/ptyA"] StdMap.empty
  = inr [(0, mkPtyChan 0 (-1) "/tmp/ptyA" EmptyString)].
Proof.
  destruct (non_numeric_id_is_channel_zero "A" ":/tmp/ptyA") as [_ H].
  - reflexivity.
  - reflexivity.
  - discriminate.
  - discriminate.
  - exact H.
Defined.

(** ** [readThread] and the registry *)

(** X9.  A turn of [readThread] that does not read the id of an
    unregistered channel (because its first read returns nothing, or returns
    a registered id) leaves the registry exactly as it was, whatever the
    other reads return. *)
Theorem registered_turn_keeps_registry (tmp : Z) (w : World) :
  (∀ cid, head (phys_in w) = Some (Some cid) →
          is_Some (StdMap.find cid (sVirtualPorts w))) →
  sVirtualPorts (readThread_body tmp w).2 = sVirtualPorts w.
Proof.
  intros Hreg.
  pose proof (readThread_body_turn tmp w) as Hturn. cbn zeta in Hturn.
  destruct (head (phys_in w)) as [[cid|]|]; try (destruct Hturn; assumption).
  destruct Hturn as [-> _].
  destruct (Hreg cid eq_refl) as [v Hv].
  rewrite (StdMapFacts.index_present _ _ _ Hv). reflexivity.
Qed.

Lemma registered_turn_keeps_registry_witness :
  sVirtualPorts
    (readThread_body 0
       (world_example [Some 10; None; Some 3; Some 97; None] ∅)).2
  = ports_example.
Proof.
  apply (registered_turn_keeps_registry 0
           (world_example [Some 10; None; Some 3; Some 97; None] ∅)).
  intros cid H. injection H as <-. eexists. reflexivity.
Defined.

Lemma index_keeps_entries cid m :
  (StdMap.ascending m → StdMap.ascending (StdMap.index cid m).2) ∧
  ∀ k v, StdMap.find k m = Some v →
         StdMap.find k (StdMap.index cid m).2 = Some v.
Proof.
  unfold StdMap.index.
  destruct (StdMap.find cid m) as [c|] eqn:Hc; cbn [snd]; [auto|].
  split; [apply StdMapFacts.emplace_ascending|].
  intros k v Hk. rewrite StdMapFacts.find_emplace_ne; [exact Hk|].
  intros ->. congruence.
Qed.

Lemma readThread_body_keeps_entries tmp w :
  (StdMap.ascending (sVirtualPorts w) →
   StdMap.ascending (sVirtualPorts (readThread_body tmp w).2)) ∧
  ∀ k v, StdMap.find k (sVirtualPorts w) = Some v →
         StdMap.find k (sVirtualPorts (readThread_body tmp w).2) = Some v.
Proof.
  pose proof (readThread_body_turn tmp w) as Hturn. cbn zeta in Hturn.
  destruct (head (phys_in w)) as [[cid|]|];
    destruct Hturn as [-> _]; auto.
  apply index_keeps_entries.
Qed.

Lemma readThread_loop_keeps_entries turns : ∀ tmp w,
  (StdMap.ascending (sVirtualPorts w) →
   StdMap.ascending (sVirtualPorts (readThread_loop turns tmp w))) ∧
  ∀ k v, StdMap.find k (sVirtualPorts w) = Some v →
         StdMap.find k (sVirtualPorts (readThread_loop turns tmp w)) = Some v.
Proof.
  induction turns as [|turns IH]; intros tmp w; cbn [readThread_loop];
    [auto|].
  destruct (terminateProcess w); [cbn; auto|].
  destruct (readThread_body_keeps_entries tmp w) as [B1 B2].
  destruct (readThread_body tmp w) as [tmp' w']. cbn [snd] in *.
  destruct (IH tmp' w') as [I1 I2]. split; auto.
Qed.

(** X10.  However long [readThread] runs and whatever arrives on the
    serial port, it never removes a registry entry and never changes the
    entry of a channel: what was found under an id before is found under it
    afterwards; and the registry stays in ascending order of id. *)
Theorem readThread_keeps_entries (turns : nat) (tmp : Z) (w : World) :
  (StdMap.ascending (sVirtualPorts w) →
   StdMap.ascending (sVirtualPorts (readThread turns tmp w))) ∧
  ∀ k v, StdMap.find k (sVirtualPorts w) = Some v →
         StdMap.find k (sVirtualPorts (readThread turns tmp w)) = Some v.
Proof.
  unfold readThread.
  exact (readThread_loop_keeps_entries turns tmp (emit (Cout ReadStart) w)).
Qed.

Lemma readThread_keeps_entries_witness :
  StdMap.find 20
    (sVirtualPorts
       (readThread 5 0
          (world_example (Some <$> encode 30 [1; 2] ++ encode 7 [20; 20]) ∅)))
  = Some (mkPtyChan 20 5 "/tmp/ptyB" "/dev/pts/2").
Proof.
  destruct (readThread_keeps_entries 5 0
              (world_example (Some <$> encode 30 [1; 2] ++ encode 7 [20; 20])
                             ∅)) as [_ H].
  apply H. reflexivity.
Defined.

(** ** The payload loop counts writes, not bytes read *)

Lemma forward_payload_count n : ∀ fd tmp w,
  terminateProcess w = false →
  ∃ written,
    delivered fd (trace (forward_payload n fd tmp w).2)
    = delivered fd (trace w) ++ written ∧
    length written = n.
Proof.
  induction n as [|n IH]; intros fd tmp w Ht.
  - exists []. cbn. rewrite app_nil_r. auto.
  - cbn [forward_payload]. rewrite Ht.
    destruct (read_phys_keeps tmp w) as (R1 & R2 & R3 & _). cbn zeta in *.
    destruct (read_phys tmp w) as [[k b] w1]. cbn [snd] in *.
    match goal with
    | |- context [forward_payload n fd b ?w2] =>
        destruct (IH fd b w2) as (written & I1 & I2)
    end.
    { cbn. rewrite R2. exact Ht. }
    exists (b :: written). rewrite I1. cbn [trace emit write_pty].
    rewrite R3, !delivered_app. unfold delivered at 2 3 4 5. cbn.
    destruct (decide (fd = fd)); [|congruence].
    rewrite <- !app_assoc. cbn. split; [reflexivity | lia].
Qed.

(** X11.  Once the three header bytes are read, a turn of [readThread]
    makes exactly as many writes to the channel's descriptor as the header
    declares (high byte times 256 plus low byte), whether or not the payload
    reads return anything: the count of the loop is the declared length, not
    the number of bytes received. *)
Theorem turn_writes_declared_count (cid hi lo tmp : Z) (w : World)
    (s : list (option Z)) :
  0 ≤ hi ≤ 255 → 0 ≤ lo ≤ 255 →
  terminateProcess w = false →
  phys_in w = Some cid :: Some hi :: Some lo :: s →
  ∃ written,
    delivered (route (sVirtualPorts w) cid) (trace (readThread_body tmp w).2)
    = delivered (route (sVirtualPorts w) cid) (trace w) ++ written ∧
    Z.of_nat (length written) = hi * 256 + lo.
Proof.
  intros Hhi Hlo Ht Hin.
  set (n := hi * 256 + lo).
  assert (Hn : 0 ≤ n < 65536) by (unfold n; lia).
  destruct (length_bytes_div n Hn) as [Hh Hl].
  assert (n / 256 = hi) as Ehi
    by (unfold n; rewrite Z.div_add_l, Z.div_small by lia; lia).
  assert (n mod 256 = lo) as Elo.
  { unfold n. rewrite Z.add_comm, Z.mod_add by lia. apply Z.mod_small. lia. }
  rewrite <- Ehi, <- Hh, <- Elo, <- Hl in Hin.
  unfold readThread_body.
  rewrite (read_header_whole cid n tmp w s Hn Hin).
  cbn iota beta. cbn [sVirtualPorts]. unfold route.
  destruct (StdMap.index cid (sVirtualPorts w)) as [chan m]. cbn [fst].
  match goal with
  | |- context [forward_payload ?k ?fd ?t ?w2] =>
      destruct (forward_payload_count k fd t w2 Ht) as (written & F1 & F2)
  end.
  exists written. rewrite F1. cbn [trace set_ports].
  rewrite delivered_app, delivered_header_events, app_nil_r.
  split; [reflexivity|]. rewrite F2. lia.
Qed.

Lemma turn_writes_declared_count_witness :
  ∃ written,
    delivered 4
      (trace (readThread_body 0
                (world_example [Some 10; Some 0; Some 3; Some 97; None] ∅)).2)
    = written ∧
    Z.of_nat (length written) = 3.
Proof.
  destruct (turn_writes_declared_count 10 0 3 0
              (world_example [Some 10; Some 0; Some 3; Some 97; None] ∅)
              [Some 97; None])
    as (written & H1 & H2); try lia; try reflexivity.
  exists written. split; [exact H1 | exact H2].
Defined.

(** X12.  A frame that declares length 0 costs the transport its three
    header bytes and nothing else, and nothing is written to any
    descriptor; the channel is looked up all the same, so an unregistered
    id is entered in the registry even by an empty frame. *)
Theorem empty_frame_turn (cid tmp : Z) (w : World) (s : list (option Z)) :
  phys_in w = Some cid :: Some 0 :: Some 0 :: s →
  phys_in (readThread_body tmp w).2 = s ∧
  (∀ fd, delivered fd (trace (readThread_body tmp w).2)
         = delivered fd (trace w)) ∧
  sVirtualPorts (readThread_body tmp w).2
  = (StdMap.index cid (sVirtualPorts w)).2.
Proof.
  intros Hin. unfold readThread_body.
  rewrite (read_header_whole cid 0 tmp w s ltac:(lia) Hin).
  cbn iota beta. cbn [sVirtualPorts].
  destruct (StdMap.index cid (sVirtualPorts w)) as [chan m].
  change (Z.to_nat 0) with 0%nat.
  cbn [forward_payload snd phys_in trace sVirtualPorts set_ports].
  repeat split; auto. intros fd.
  rewrite delivered_app, delivered_header_events, app_nil_r. reflexivity.
Qed.

Lemma empty_frame_turn_witness :
  StdMap.keys
    (sVirtualPorts
       (readThread_body 0 (world_example [Some 30; Some 0; Some 0] ∅)).2)
  = [10; 20; 30].
Proof.
  destruct (empty_frame_turn 30 0 (world_example [Some 30; Some 0; Some 0] ∅)
              []) as (_ & _ & H).
  - reflexivity.
  - rewrite H. reflexivity.
Defined.

(** ** A pass of [writeThread] *)

Lemma drop_min_length {A} (n : nat) (l : list A) :
  drop (Nat.min n (length l)) l = drop n l.
Proof.
  destruct (Nat.le_gt_cases n (length l)) as [H|H].
  - rewrite Nat.min_l by exact H. reflexivity.
  - rewrite Nat.min_r by lia. rewrite !drop_ge by lia. reflexivity.
Qed.

Lemma pass_frames_cons e m qs :
  pass_frames (e :: m) qs
  = match default [] (qs !! pty e.2) with
    | [] => []
    | b :: q => [(e.1, take (Z.to_nat cMaxDataSize) (b :: q))]
    end ++ pass_frames m qs.
Proof. reflexivity. Qed.

Lemma pass_frames_insert_other m qs fd q :
  fd ∉ ((fun e : Z * ptyChan => pty e.2) <$> m) →
  pass_frames m (<[fd := q]> qs) = pass_frames m qs.
Proof.
  induction m as [|e m IH]; intros Hfd; [reflexivity|].
  rewrite fmap_cons in Hfd. apply not_elem_of_cons in Hfd as [Hne Hfd].
  rewrite !pass_frames_cons, IH by exact Hfd.
  rewrite lookup_insert_ne by exact Hne. reflexivity.
Qed.

Lemma writeThread_for_pass m : ∀ buf w,
  terminateProcess w = false →
  NoDup ((fun e : Z * ptyChan => pty e.2) <$> m) →
  let r := writeThread_for m buf w in
  phys_writes (trace r.2)
  = phys_writes (trace w)
    ++ (pass_frames m (pty_in w) ≫= (fun f => frame_writes f.1 f.2)) ∧
  (∀ e, e ∈ m →
        default [] (pty_in r.2 !! pty e.2)
        = drop (Z.to_nat cMaxDataSize) (default [] (pty_in w !! pty e.2))) ∧
  (∀ fd, fd ∉ ((fun e : Z * ptyChan => pty e.2) <$> m) →
         pty_in r.2 !! fd = pty_in w !! fd).
Proof.
  induction m as [|[cid chan] m IH]; intros buf w Ht Hnd; cbn zeta.
  - cbn. rewrite app_nil_r. repeat split; auto. intros e He. inversion He.
  - rewrite fmap_cons in Hnd. apply NoDup_cons in Hnd as [Hfresh Hnd].
    cbn [snd] in Hfresh.
    cbn [writeThread_for]. rewrite writeThread_step_spec, pass_frames_cons.
    cbn [fst snd].
    destruct (default [] (pty_in w !! pty chan)) as [|b q] eqn:Hq.
    + match goal with
      | |- context [writeThread_for m buf ?w1] =>
          destruct (IH buf w1 Ht Hnd) as (I1 & I2 & I3)
      end.
      cbn zeta in *. cbn [pty_in trace] in *.
      rewrite I1, !phys_writes_app. cbn [app]. split.
      { change (phys_writes [PtyRead (pty chan)
                               (idle_result (pty_in w) (pty chan)) []; Sleep])
          with (@nil (list Z)). rewrite app_nil_r. reflexivity. }
      split.
      * intros e He. apply elem_of_cons in He as [->|He]; [|exact (I2 e He)].
        cbn [snd]. rewrite (I3 _ Hfresh), Hq, drop_nil. reflexivity.
      * intros fd Hfd. rewrite fmap_cons in Hfd.
        apply not_elem_of_cons in Hfd as [_ Hfd]. exact (I3 fd Hfd).
    + rewrite Ht.
      set (k := Nat.min (Z.to_nat cMaxDataSize) (length (b :: q))).
      match goal with
      | |- context [writeThread_for m ?buf1 ?w1] =>
          destruct (IH buf1 w1 eq_refl Hnd) as (I1 & I2 & I3)
      end.
      cbn zeta in *. cbn [pty_in trace] in *.
      rewrite I1, pass_frames_insert_other by exact Hfresh.
      rewrite phys_writes_app, phys_writes_frame_events.
      unfold k at 1. rewrite take_min_length.
      split.
      { rewrite bind_app, <- app_assoc. reflexivity. }
      split.
      * intros e He. apply elem_of_cons in He as [->|He].
        -- cbn [snd]. rewrite (I3 _ Hfresh), lookup_insert_eq. cbn [default].
           unfold k. rewrite Hq. apply drop_min_length.
        -- rewrite (I2 e He). rewrite lookup_insert_ne; [reflexivity|].
           intros Heq. apply Hfresh. rewrite Heq.
           apply list_elem_of_fmap. exists e. auto.
      * intros fd Hfd. rewrite fmap_cons in Hfd.
        apply not_elem_of_cons in Hfd as [Hne Hfd]. cbn [snd] in Hne.
        rewrite (I3 fd Hfd). apply lookup_insert_ne. congruence.
Qed.

(** X13.  One pass of [writeThread], with the flag unset and every entry on
    a descriptor of its own: each entry whose descriptor has data gets
    exactly one frame, carrying the first [cMaxDataSize] bytes waiting
    there; the frames go out in registry order; entries with nothing to
    read get none; what a frame carried is gone from its descriptor, the
    rest stays for the next pass, and no other descriptor is read. *)
Theorem pass_sends_one_frame_per_endpoint (buf : list Z) (w : World) :
  terminateProcess w = false →
  NoDup ((fun e : Z * ptyChan => pty e.2) <$> sVirtualPorts w) →
  phys_writes (trace (writeThread_pass buf w).2)
  = phys_writes (trace w)
    ++ (pass_frames (sVirtualPorts w) (pty_in w)
          ≫= (fun f => frame_writes f.1 f.2)) ∧
  (∀ e, e ∈ sVirtualPorts w →
        default [] (pty_in (writeThread_pass buf w).2 !! pty e.2)
        = drop (Z.to_nat cMaxDataSize) (default [] (pty_in w !! pty e.2))) ∧
  (∀ fd, fd ∉ ((fun e : Z * ptyChan => pty e.2) <$> sVirtualPorts w) →
         pty_in (writeThread_pass buf w).2 !! fd = pty_in w !! fd).
Proof.
  intros Ht Hnd. unfold writeThread_pass.
  exact (writeThread_for_pass (sVirtualPorts w) buf w Ht Hnd).
Qed.

Lemma pass_sends_one_frame_per_endpoint_witness :
  phys_writes
    (trace (writeThread_pass []
              (world_example [] {[4 := [1; 2]; 5 := [3]]})).2)
  = [[10]; [0]; [2]; [1; 2]; [20]; [0]; [1]; [3]].
Proof.
  destruct (pass_sends_one_frame_per_endpoint []
              (world_example [] {[4 := [1; 2]; 5 := [3]]})) as (H & _).
  - reflexivity.
  - vm_compute. repeat constructor; intros H; inversion H; subst;
      match goal with H' : _ ∈ _ |- _ => inversion H' end.
  - exact H.
Defined.

(** ** Several passes: the data of a channel stays in order *)

Lemma channel_data_app k fs1 fs2 :
  channel_data k (fs1 ++ fs2) = channel_data k fs1 ++ channel_data k fs2.
Proof. apply bind_app. Qed.

Lemma channel_data_absent k (fs : list frame) :
  (∀ f, f ∈ fs → f.1 ≠ k) → channel_data k fs = [].
Proof.
  induction fs as [|f fs IH]; intros H; [reflexivity|].
  change (channel_data k (f :: fs))
    with ((if decide (f.1 = k) then f.2 else []) ++ channel_data k fs).
  rewrite IH by (intros f' Hf'; apply H; right; exact Hf').
  destruct (decide (f.1 = k)) as [Heq|]; [|reflexivity].
  exfalso. exact (H f ltac:(left) Heq).
Qed.

Lemma pass_frames_ids m qs (f : frame) :
  f ∈ pass_frames m qs → f.1 ∈ StdMap.keys m.
Proof.
  unfold pass_frames, StdMap.keys. intros Hf.
  apply list_elem_of_bind in Hf as (e & Hf & He).
  destruct (default [] (qs !! pty e.2)) as [|b q]; [inversion Hf|].
  apply list_elem_of_singleton in Hf as ->. cbn [fst].
  apply list_elem_of_fmap. exists e. auto.
Qed.

Lemma channel_data_pass_frames m qs k chan :
  NoDup (StdMap.keys m) → (k, chan) ∈ m →
  channel_data k (pass_frames m qs)
  = take (Z.to_nat cMaxDataSize) (default [] (qs !! pty chan)).
Proof.
  unfold StdMap.keys.
  induction m as [|e m IH]; intros Hnd Hin; [inversion Hin|].
  rewrite fmap_cons in Hnd. apply NoDup_cons in Hnd as [Hfresh Hnd].
  rewrite pass_frames_cons, channel_data_app.
  apply elem_of_cons in Hin as [<-|Hin].
  - cbn [fst snd].
    rewrite (channel_data_absent k (pass_frames m qs)).
    + destruct (default [] (qs !! pty chan)) as [|b q];
        [rewrite take_nil; reflexivity|].
      unfold channel_data. cbn. destruct (decide (k = k)); [|congruence].
      rewrite !app_nil_r. reflexivity.
    + intros f Hf Heq. apply Hfresh. rewrite <- Heq.
      exact (pass_frames_ids _ _ _ Hf).
  - rewrite (IH Hnd Hin).
    assert (e.1 ≠ k).
    { intros Heq. apply Hfresh. rewrite Heq.
      apply list_elem_of_fmap. exists (k, chan). auto. }
    destruct (default [] (qs !! pty e.2)) as [|b q]; [reflexivity|].
    unfold channel_data at 1. cbn.
    destruct (decide (e.1 = k)); [contradiction|reflexivity].
Qed.

(** X14.  Over any number of passes, with the flag unset, every entry on a
    descriptor of its own and under an id of its own: what [writeThread]
    hands to the serial port is a sequence of whole frames, and for each
    channel the payloads of its frames, put end to end, are exactly the
    first [passes * cMaxDataSize] bytes that were waiting on its
    descriptor, in their order; the bytes beyond that are still waiting.
    Nothing is lost, repeated or moved to another channel. *)
Theorem egress_preserves_channel_data (passes : nat) (buf : list Z)
    (w : World) :
  terminateProcess w = false →
  NoDup ((fun e : Z * ptyChan => pty e.2) <$> sVirtualPorts w) →
  NoDup (StdMap.keys (sVirtualPorts w)) →
  ∃ frames : list frame,
    phys_writes (trace (writeThread_loop passes buf w))
    = phys_writes (trace w) ++ (frames ≫= (fun f => frame_writes f.1 f.2)) ∧
    ∀ k chan, (k, chan) ∈ sVirtualPorts w →
      channel_data k frames
      = take (passes * Z.to_nat cMaxDataSize)
             (default [] (pty_in w !! pty chan)) ∧
      default [] (pty_in (writeThread_loop passes buf w) !! pty chan)
      = drop (passes * Z.to_nat cMaxDataSize)
             (default [] (pty_in w !! pty chan)).
Proof.
  revert buf w. induction passes as [|passes IH]; intros buf w Ht Hfd Hk.
  - exists []. cbn. rewrite app_nil_r. split; [reflexivity|].
    intros k chan _. rewrite take_0. auto.
  - cbn [writeThread_loop]. rewrite Ht. unfold writeThread_pass.
    destruct (writeThread_for_pass (sVirtualPorts w) buf w Ht Hfd)
      as (P1 & P2 & _).
    destruct (writeThread_for_keeps (sVirtualPorts w) buf w Ht)
      as (K1 & K2 & _ & _).
    cbn zeta in *.
    destruct (writeThread_for (sVirtualPorts w) buf w) as [buf1 w1].
    cbn [fst snd] in *.
    destruct (IH buf1 w1 K2) as (frames & F1 & F2);
      [rewrite K1; exact Hfd | rewrite K1; exact Hk |].
    exists (pass_frames (sVirtualPorts w) (pty_in w) ++ frames).
    split.
    + rewrite F1, P1, bind_app, app_assoc. reflexivity.
    + intros k chan Hin.
      destruct (F2 k chan ltac:(rewrite K1; exact Hin)) as [D1 D2].
      specialize (P2 (k, chan) Hin). cbn [snd] in P2.
      rewrite P2 in D1, D2. split.
      * rewrite channel_data_app, D1,
          (channel_data_pass_frames _ _ _ _ Hk Hin).
        rewrite take_take_drop. reflexivity.
      * rewrite D2, drop_drop. reflexivity.
Qed.

Lemma egress_preserves_channel_data_witness :
  default []
    (pty_in (writeThread_loop 2 []
               (world_example [] {[4 := [1; 2]; 5 := [3]]})) !! 5)
  = [].
Proof.
  destruct (egress_preserves_channel_data 2 []
              (world_example [] {[4 := [1; 2]; 5 := [3]]}))
    as (frames & _ & H).
  - reflexivity.
  - vm_compute. repeat constructor; intros H; inversion H; subst;
      match goal with H' : _ ∈ _ |- _ => inversion H' end.
  - vm_compute. repeat constructor; intros H; inversion H; subst;
      match goal with H' : _ ∈ _ |- _ => inversion H' end.
  - destruct (H 20 (mkPtyChan 20 5 "/tmp/ptyB" "/dev/pts/2")) as [_ H2].
    + right. left.
    + etransitivity; [exact H2 | vm_compute; reflexivity].
Defined.

(** ** Writes whose result is not looked at *)

(** X15.  Only the count of the data write is compared with the length.
    When the serial port takes the data in full, no error is printed and
    the step goes on as if all were well, whatever the three one-byte header
    writes returned, be it 0 or -1 for each of them. *)
Theorem header_write_failures_are_silent (cid : Z) (chan : ptyChan)
    (buf : list Z) (w : World) (a1 a2 a3 a4 : Z) (room : list Z) :
  default [] (pty_in w !! pty chan) ≠ [] →
  phys_room w = a1 :: a2 :: a3 :: a4 :: room →
  cMaxDataSize ≤ a4 →
  let data := take (Z.to_nat cMaxDataSize) (default [] (pty_in w !! pty chan)) in
  let r := writeThread_step (cid, chan) buf w in
  errors (trace r.2) = errors (trace w) ∧
  trace r.2
  = trace w
    ++ [PtyRead (pty chan) (Z.of_nat (length data)) data;
        PhysWrite [cid] (if a1 <? 0 then -1 else Z.min a1 1);
        PhysWrite [Z.land (Z.shiftr (Z.of_nat (length data)) 8) 255]
                  (if a2 <? 0 then -1 else Z.min a2 1);
        PhysWrite [Z.land (Z.of_nat (length data)) 255]
                  (if a3 <? 0 then -1 else Z.min a3 1);
        PhysWrite data (Z.of_nat (length data))].
Proof.
  intros Hq Hroom Ha4. cbn zeta.
  set (q := default [] (pty_in w !! pty chan)) in *.
  pose proof (read_count_bounds q Hq) as Hk.
  rewrite <- (take_min_length (Z.to_nat cMaxDataSize) q).
  set (k := Nat.min (Z.to_nat cMaxDataSize) (length q)) in *.
  assert (Hlen : length (take k q) = k).
  { rewrite length_take. unfold k. lia. }
  rewrite Hlen. rewrite writeThread_step_spec. fold q. fold k.
  destruct q as [|b q'] eqn:Eq; [congruence|]. rewrite <- Eq in *.
  cbn [snd trace]. rewrite Hroom.
  unfold frame_events. rewrite Hlen.
  assert (Hacc : accepted (a1 :: a2 :: a3 :: a4 :: room) 3 (Z.of_nat k)
                 = Z.of_nat k).
  { unfold accepted. cbn [lookup list_lookup].
    replace (a4 <? 0) with false by lia. lia. }
  rewrite Hacc, Z.eqb_refl, app_nil_r.
  split; [|reflexivity].
  rewrite errors_app. cbn. rewrite app_nil_r. reflexivity.
Qed.

Lemma header_write_failures_are_silent_witness :
  errors
    (trace (writeThread_step (10, mkPtyChan 10 4 "/tmp/ptyA" "/dev/pts/1") []
              (mkWorld ports_example false [] [-1; 0; -1; 1000]
                       {[4 := [104; 105]]} [])).2)
  = [].
Proof.
  destruct (header_write_failures_are_silent 10
              (mkPtyChan 10 4 "/tmp/ptyA" "/dev/pts/1") []
              (mkWorld ports_example false [] [-1; 0; -1; 1000]
                       {[4 := [104; 105]]} [])
              (-1) 0 (-1) 1000 []) as [H _].
  - vm_compute. discriminate.
  - reflexivity.
  - vm_compute. discriminate.
  - exact H.
Defined.

(** ** The flag *)

(** X16.  With the flag set, a pass ends at the first entry that had data:
    the entries before it, which had none, are polled; its frame is sent in
    full; and the entries after it are not polled at all, so what waits on
    their descriptors stays there. *)
Theorem pass_stops_when_flag_set (C : Z) (chan : ptyChan) (l1 l2 : StdMap.t)
    (buf : list Z) (w : World) :
  terminateProcess w = true →
  sVirtualPorts w = l1 ++ (C, chan) :: l2 →
  default [] (pty_in w !! pty chan) ≠ [] →
  Forall (fun e : Z * ptyChan => default [] (pty_in w !! pty e.2) = []) l1 →
  let data := take (Z.to_nat cMaxDataSize) (default [] (pty_in w !! pty chan)) in
  polled (trace (writeThread_pass buf w).2)
  = polled (trace w) ++ ((fun e => pty e.2) <$> l1) ++ [pty chan] ∧
  phys_writes (trace (writeThread_pass buf w).2)
  = phys_writes (trace w) ++ frame_writes C data ∧
  ∀ fd, fd ≠ pty chan →
        pty_in (writeThread_pass buf w).2 !! fd = pty_in w !! fd.
Proof.
  intros Ht Hm Hq Hidle. cbn zeta.
  set (q := default [] (pty_in w !! pty chan)) in *.
  rewrite <- (take_min_length (Z.to_nat cMaxDataSize) q).
  unfold writeThread_pass. rewrite Hm.
  rewrite (writeThread_for_idle_app l1 _ buf w Hidle).
  cbn [writeThread_for]. rewrite writeThread_step_spec.
  cbn [pty_in trace terminateProcess sVirtualPorts phys_in phys_room].
  fold q. destruct q as [|b q'] eqn:Eq; [congruence|].
  rewrite Ht. cbn [snd trace pty_in].
  assert (Hpoll : ∀ (qs : gmap Z (list Z)) (l : StdMap.t),
            polled (idle_events qs l) = (fun e => pty e.2) <$> l).
  { intros qs. induction l as [|e l IHl]; [reflexivity|].
    change (idle_events qs (e :: l))
      with ([PtyRead (pty e.2) (idle_result qs (pty e.2)) []; Sleep]
            ++ idle_events qs l).
    rewrite polled_app, IHl. reflexivity. }
  repeat split.
  - rewrite !polled_app, polled_frame_events, Hpoll, <- app_assoc.
    reflexivity.
  - rewrite !phys_writes_app, phys_writes_idle_events,
      phys_writes_frame_events, app_nil_r. reflexivity.
  - intros fd Hfd. apply lookup_insert_ne. congruence.
Qed.

Lemma pass_stops_when_flag_set_witness :
  polled
    (trace (writeThread_pass []
              (mkWorld ports_example true [] [] {[4 := [1; 2]; 5 := [3]]} [])).2)
  = [4] ∧
  pty_in
    (writeThread_pass []
       (mkWorld ports_example true [] [] {[4 := [1; 2]; 5 := [3]]} [])).2 !! 5
  = Some [3].
Proof.
  destruct (pass_stops_when_flag_set 10
              (mkPtyChan 10 4 "/tmp/ptyA" "/dev/pts/1") []
              [(20, mkPtyChan 20 5 "/tmp/ptyB" "/dev/pts/2")] []
              (mkWorld ports_example true [] [] {[4 := [1; 2]; 5 := [3]]} []))
    as (H1 & _ & H3).
  - reflexivity.
  - reflexivity.
  - vm_compute. discriminate.
  - constructor.
  - split; [exact H1|]. rewrite (H3 5); [reflexivity | discriminate].
Defined.

(** ** What [writeThread] touches *)

Lemma writeThread_for_visits m : ∀ buf w,
  let r := writeThread_for m buf w in
  sVirtualPorts r.2 = sVirtualPorts w ∧
  terminateProcess r.2 = terminateProcess w ∧
  ∃ visited rest,
    m = visited ++ rest ∧
    polled (trace r.2)
    = polled (trace w) ++ ((fun e : Z * ptyChan => pty e.2) <$> visited).
Proof.
  induction m as [|e m IH]; intros buf w; cbn zeta; cbn [writeThread_for].
  - repeat split. exists [], []. cbn. rewrite app_nil_r. auto.
  - pose proof (writeThread_step_keeps e buf w) as (H1 & H2 & _ & H4 & _).
    cbn zeta in *.
    destruct (writeThread_step e buf w) as [[brk buf'] w']. cbn [fst snd] in *.
    destruct brk.
    + repeat split; auto. exists [e], m. split; [reflexivity|exact H4].
    + destruct (IH buf' w') as (I1 & I2 & visited & rest & -> & I4).
      cbn zeta in *. rewrite I1, I2, I4, H1, H2, H4.
      repeat split. exists (e :: visited), rest.
      split; [reflexivity|]. rewrite fmap_cons, <- app_assoc. reflexivity.
Qed.

Lemma writeThread_loop_visits passes : ∀ buf w,
  let w' := writeThread_loop passes buf w in
  sVirtualPorts w' = sVirtualPorts w ∧
  terminateProcess w' = terminateProcess w ∧
  ∃ visits : list StdMap.t,
    polled (trace w')
    = polled (trace w)
      ++ (visits ≫= fmap (fun e : Z * ptyChan => pty e.2)) ∧
    Forall (fun v => ∃ rest, sVirtualPorts w = v ++ rest) visits.
Proof.
  induction passes as [|passes IH]; intros buf w; cbn zeta;
    cbn [writeThread_loop].
  - repeat split. exists []. cbn. rewrite app_nil_r. auto.
  - destruct (terminateProcess w) eqn:Ht.
    + cbn [sVirtualPorts terminateProcess emit trace]. repeat split; auto.
      exists []. rewrite polled_app. cbn. auto.
    + unfold writeThread_pass.
      pose proof (writeThread_for_visits (sVirtualPorts w) buf w)
        as (P1 & P2 & visited & rest & Hm & P4).
      cbn zeta in *.
      destruct (writeThread_for (sVirtualPorts w) buf w) as [buf' w'].
      cbn [snd] in *.
      destruct (IH buf' w') as (I1 & I2 & visits & I3 & I4).
      cbn zeta in *. rewrite I1, I2, I3, P1, P2, P4, Ht.
      repeat split. exists (visited :: visits). split.
      * rewrite bind_cons, <- app_assoc. reflexivity.
      * constructor; [exists rest; exact Hm|].
        rewrite P1 in I4. exact I4.
Qed.

(** X17.  [writeThread] never changes the registry and never touches the
    flag, however many passes it makes and whatever its reads and writes
    return; and the descriptors it reads are, pass after pass, those of the
    registry's entries, taken in the registry's order from the first (a
    pass the flag cuts short stops part of the way): it reads from no
    descriptor that is not the [pty] of a registry entry. *)
Theorem writeThread_polls_registry (passes : nat) (buf : list Z) (w : World) :
  let w' := writeThread passes buf w in
  sVirtualPorts w' = sVirtualPorts w ∧
  terminateProcess w' = terminateProcess w ∧
  ∃ visits : list StdMap.t,
    polled (trace w')
    = polled (trace w)
      ++ (visits ≫= fmap (fun e : Z * ptyChan => pty e.2)) ∧
    Forall (fun v => ∃ rest, sVirtualPorts w = v ++ rest) visits.
Proof.
  cbn zeta. unfold writeThread.
  destruct (writeThread_loop_visits passes buf (emit (Cout WriteStart) w))
    as (H1 & H2 & visits & H3 & H4).
  cbn zeta in *. cbn [sVirtualPorts terminateProcess emit trace] in *.
  rewrite polled_app in H3. cbn in H3. rewrite app_nil_r in H3.
  repeat split; auto. exists visits. auto.
Qed.

(** ** Shutdown *)

Lemma shutdownVPorts_cons e m :
  shutdownVPorts (e :: m)
  = ([Disconnecting (channelId e.2) (ptyName e.2) (linkPath e.2);
      Close (pty e.2)]
     ++ (if negb (String.length (linkPath e.2) =? 0)%nat
         then [Unlink (linkPath e.2)] else []))
    ++ shutdownVPorts m.
Proof. reflexivity. Qed.

Lemma shutdownVPorts_effects m :
  closed (shutdownVPorts m) = (fun e => pty e.2) <$> m ∧
  unlinked (shutdownVPorts m)
  = filter (fun p : string => p ≠ EmptyString) ((fun e => linkPath e.2) <$> m).
Proof.
  induction m as [|e m [IH1 IH2]]; [split; reflexivity|].
  rewrite shutdownVPorts_cons. unfold closed, unlinked in *.
  rewrite !bind_app, IH1, IH2, !fmap_cons, filter_cons.
  destruct (linkPath e.2) as [|c s] eqn:Hl; cbn [String.length Nat.eqb negb].
  - destruct (decide (EmptyString ≠ EmptyString)); [congruence|].
    split; reflexivity.
  - destruct (decide (String c s ≠ EmptyString)); [|exfalso; auto].
    split; reflexivity.
Qed.

Lemma main_engine_started os opts operands m tty :
  main os opts operands = Engine m tty → Forall (started_entry os) m.
Proof.
  unfold main. intros H.
  destruct (parse_options opts StdMap.empty) as [code|m0] eqn:Hp;
    [discriminate|].
  destruct (StdMap.size m0 <? 1); [discriminate|].
  destruct operands as [|path rest]; [discriminate|].
  destruct (openPysicalPort os path) as [rv t].
  destruct (negb (rv =? 0)); [discriminate|].
  destruct (start_ports os m0) as [m1|] eqn:Hs; [|discriminate].
  injection H as <- <-.
  pose proof (parse_options_fresh _ _ _ Hp ltac:(constructor)) as Hfresh.
  exact (proj1 (start_ports_started os m0 m1 Hfresh Hs)).
Qed.

Lemma elem_find_ascending m k v :
  StdMap.ascending m → (k, v) ∈ m → StdMap.find k m = Some v.
Proof.
  unfold StdMap.ascending, StdMap.keys.
  induction m as [|[k1 v1] m IH]; intros Hs Hin; [inversion Hin|].
  cbn [fmap list_fmap fst] in Hs.
  apply StronglySorted_inv in Hs as [Hs Hall].
  cbn [StdMap.find].
  apply elem_of_cons in Hin as [Heq|Hin].
  - injection Heq as -> ->. rewrite Z.ltb_irrefl, Z.eqb_refl. reflexivity.
  - assert (Hk : k1 < k).
    { rewrite Forall_forall in Hall. apply Hall.
      apply list_elem_of_fmap. exists (k, v). auto. }
    replace (k <? k1) with false by lia.
    replace (k =? k1) with false by lia.
    exact (IH Hs Hin).
Qed.

(** On an ascending registry [shutdownVPorts] closes, entry by entry, the
    descriptor [readThread] writes to for that entry's id. *)
Lemma closed_route m :
  StdMap.ascending m →
  closed (shutdownVPorts m) = route m <$> StdMap.keys m.
Proof.
  intros Hs. rewrite (proj1 (shutdownVPorts_effects m)).
  unfold StdMap.keys. rewrite <- list_fmap_compose.
  apply Forall_fmap_ext, Forall_forall. intros [k v] Hin. cbn.
  symmetry. apply route_present, elem_find_ascending; assumption.
Qed.

Lemma unlinked_emplace_zero k m :
  unlinked (shutdownVPorts (StdMap.emplace k ptyChan_zero m))
  = unlinked (shutdownVPorts m).
Proof.
  induction m as [|[k1 v1] m IH]; cbn [StdMap.emplace]; [reflexivity|].
  destruct (k <? k1); [reflexivity|].
  destruct (k =? k1); [reflexivity|].
  rewrite !shutdownVPorts_cons. unfold unlinked in *.
  rewrite !bind_app, IH. reflexivity.
Qed.

(** What [readThread] adds to the registry has descriptor 0 and no link
    path: routes and the paths to unlink stay as they were. *)
Lemma readThread_loop_registry turns : ∀ tmp w,
  let m' := sVirtualPorts (readThread_loop turns tmp w) in
  (∀ k, route m' k = route (sVirtualPorts w) k) ∧
  unlinked (shutdownVPorts m') = unlinked (shutdownVPorts (sVirtualPorts w)).
Proof.
  induction turns as [|turns IH]; intros tmp w; cbn zeta;
    cbn [readThread_loop]; [auto|].
  destruct (terminateProcess w); [cbn; auto|].
  pose proof (readThread_body_turn tmp w) as Hturn. cbn zeta in Hturn.
  destruct (readThread_body tmp w) as [tmp' w'] eqn:Hb. cbn [snd] in Hturn.
  destruct (IH tmp' w') as [I1 I2]. cbn zeta in *.
  assert (Hstep : (∀ k, route (sVirtualPorts w') k = route (sVirtualPorts w) k)
                  ∧ unlinked (shutdownVPorts (sVirtualPorts w'))
                    = unlinked (shutdownVPorts (sVirtualPorts w))).
  { destruct (head (phys_in w)) as [[cid|]|];
      destruct Hturn as [-> _]; auto.
    split; [intros k; apply route_index_stable|].
    unfold StdMap.index.
    destruct (StdMap.find cid (sVirtualPorts w)); cbn [snd];
      [reflexivity | apply unlinked_emplace_zero]. }
  destruct Hstep as [S1 S2]. split.
  - intros k. rewrite I1. apply S1.
  - rewrite I2. exact S2.
Qed.

(** X19.  [shutdownVPorts] as [main] calls it, after a start of the engine
    and a run of [readThread] of any length on any input.  It closes one
    descriptor for every entry the registry then has, in ascending order of
    channel id: for an id [main] registered, the pseudo-tty opened for it;
    for an id [readThread] has inserted, descriptor 0.  Every id [main]
    registered is still there.  And it unlinks exactly the link paths of
    [main]'s entries that are not empty, those for which [startPty] made a
    symlink. *)
Theorem shutdown_undoes_startup (os : OS) (opts : list getopt_result)
    (operands : list string) (m : StdMap.t) (tty : Z)
    (turns : nat) (tmp : Z) (w : World) :
  main os opts operands = Engine m tty →
  sVirtualPorts w = m →
  let m' := sVirtualPorts (readThread turns tmp w) in
  closed (shutdownVPorts m')
  = (fun k => if decide (k ∈ StdMap.keys m) then os_posix_openpt os k else 0)
      <$> StdMap.keys m' ∧
  StdMap.ascending m' ∧
  (∀ k, k ∈ StdMap.keys m → k ∈ StdMap.keys m') ∧
  unlinked (shutdownVPorts m')
  = filter (fun p : string => p ≠ EmptyString) ((fun e => linkPath e.2) <$> m) ∧
  ∀ e, e ∈ m → linkPath e.2 ≠ EmptyString →
       os_symlink os (os_ptsname os (os_posix_openpt os e.1)) (linkPath e.2) = 0.
Proof.
  intros Hmain Hw. cbn zeta.
  pose proof (main_engine_started _ _ _ _ _ Hmain) as Hst.
  destruct (main_engine _ _ _ _ _ Hmain) as [Hasc _].
  rewrite Forall_forall in Hst.
  unfold readThread.
  set (w0 := emit (Cout ReadStart) w).
  assert (Hw0 : sVirtualPorts w0 = m) by exact Hw.
  destruct (readThread_loop_keeps_entries turns tmp w0) as [K1 K2].
  destruct (readThread_loop_registry turns tmp w0) as [R1 R2].
  cbn zeta in R1, R2. rewrite Hw0 in K1, K2, R1, R2.
  specialize (K1 Hasc).
  set (m' := sVirtualPorts (readThread_loop turns tmp w0)) in *.
  split; [|split; [exact K1|split; [|split]]].
  - rewrite (closed_route m' K1).
    apply Forall_fmap_ext, Forall_forall. intros k _. rewrite R1.
    destruct (decide (k ∈ StdMap.keys m)) as [Hin|Hnotin].
    + apply list_elem_of_fmap in Hin as ([k' v] & -> & Hin). cbn [fst].
      rewrite (route_present m k' v (elem_find_ascending m k' v Hasc Hin)).
      destruct (Hst _ Hin) as (_ & _ & Hpty & _). exact Hpty.
    + apply route_absent.
      destruct (StdMap.find k m) as [v|] eqn:Hf; [|reflexivity].
      exfalso. exact (Hnotin (StdMapFacts.find_Some_keys _ _ _ Hf)).
  - intros k Hin.
    apply list_elem_of_fmap in Hin as ([k' v] & -> & Hin). cbn [fst].
    apply (StdMapFacts.find_Some_keys k' v).
    apply K2, elem_find_ascending; assumption.
  - rewrite R2. exact (proj2 (shutdownVPorts_effects m)).
  - intros e He Hlink.
    destruct (Hst e He) as (_ & _ & Hpty & _ & Hname & Hsym).
    rewrite <- Hpty, <- Hname. apply Hsym.
    destruct (linkPath e.2); [congruence | cbn; lia].
Qed.

(** The running example after a frame for the unregistered channel 30 has
    come in: descriptor 0 is closed along with the two pseudo-ttys. *)
Lemma shutdown_undoes_startup_witness :
  closed
    (shutdownVPorts
       (sVirtualPorts
          (readThread 3 0 (world_example (Some <$> encode 30 [97]) ∅))))
  = [4; 5; 0] ∧
  unlinked
    (shutdownVPorts
       (sVirtualPorts
          (readThread 3 0 (world_example (Some <$> encode 30 [97]) ∅))))
  = ["/tmp/ptyA"%string; "/tmp/ptyB"%string].
Proof.
  destruct (shutdown_undoes_startup os_example
              [Opt_c "20:/tmp/ptyB"; Opt_c "10:/tmp/ptyA"]
              ["/dev/ttyp0"%string] ports_example 3 3 0
              (world_example (Some <$> encode 30 [97]) ∅))
    as (H1 & _ & _ & H2 & _).
  - vm_compute. reflexivity.
  - reflexivity.
  - split; [rewrite H1 | rewrite H2]; vm_compute; reflexivity.
Defined.

Lemma find_Some_elem k v m : StdMap.find k m = Some v → (k, v) ∈ m.
Proof.
  induction m as [|[k1 v1] m IH]; cbn [StdMap.find]; [discriminate|].
  destruct (k <? k1); [discriminate|].
  destruct (k =? k1) eqn:Hk.
  - intros H. injection H as ->. assert (k = k1) as -> by lia. left.
  - intros H. right. exact (IH H).
Qed.

Lemma readThread_body_flag tmp w :
  terminateProcess (readThread_body tmp w).2 = terminateProcess w.
Proof.
  unfold readThread_body.
  destruct (read_header_keeps tmp w) as (_ & H2 & _). cbn zeta in H2.
  destruct (read_header tmp w) as [[[[cid nbytes] tmp']|] w1];
    cbn [snd] in *; [|exact H2].
  destruct (StdMap.index cid (sVirtualPorts w1)) as [chan m].
  destruct (forward_payload_keeps (Z.to_nat nbytes) (pty chan) tmp'
              (set_ports m w1)) as (_ & F2 & _).
  cbn zeta in F2. rewrite F2. exact H2.
Qed.

(** X20.  What a frame for an unregistered channel leaves behind.  After a
    turn of [readThread] that read the id of an unregistered channel, that
    id is a registry entry on descriptor 0: the next pass of [writeThread]
    polls descriptor 0 like the descriptor of any channel, and
    [shutdownVPorts] closes descriptor 0. *)
Theorem unregistered_id_becomes_channel (cid tmp : Z) (buf : list Z)
    (w : World) :
  head (phys_in w) = Some (Some cid) →
  StdMap.find cid (sVirtualPorts w) = None →
  terminateProcess w = false →
  let w1 := (readThread_body tmp w).2 in
  StdMap.find cid (sVirtualPorts w1) = Some ptyChan_zero ∧
  (∃ before after,
     polled (trace (writeThread_pass buf w1).2)
     = polled (trace w1) ++ before ++ 0 :: after) ∧
  0 ∈ closed (shutdownVPorts (sVirtualPorts w1)).
Proof.
  intros Hhead Hnone Ht. cbn zeta.
  pose proof (readThread_body_turn tmp w) as Hturn. cbn zeta in Hturn.
  rewrite Hhead in Hturn. destruct Hturn as [Hreg _].
  pose proof (readThread_body_flag tmp w) as Hflag. rewrite Ht in Hflag.
  set (w1 := (readThread_body tmp w).2) in *.
  rewrite (StdMapFacts.index_absent _ _ Hnone) in Hreg. cbn [snd] in Hreg.
  assert (Hfind : StdMap.find cid (sVirtualPorts w1) = Some ptyChan_zero).
  { rewrite Hreg, StdMapFacts.find_emplace_eq, Hnone. reflexivity. }
  pose proof (find_Some_elem _ _ _ Hfind) as Hin.
  assert (Hfd : 0 ∈ (fun e : Z * ptyChan => pty e.2) <$> sVirtualPorts w1).
  { apply list_elem_of_fmap. exists (cid, ptyChan_zero). auto. }
  split; [exact Hfind|]. split.
  - unfold writeThread_pass.
    destruct (writeThread_for_keeps (sVirtualPorts w1) buf w1 Hflag)
      as (_ & _ & _ & Hp).
    cbn zeta in Hp. rewrite Hp.
    apply list_elem_of_split in Hfd as (before & after & ->).
    exists before, after. reflexivity.
  - rewrite (proj1 (shutdownVPorts_effects _)). exact Hfd.
Qed.

Lemma unregistered_id_becomes_channel_witness :
  StdMap.find 30
    (sVirtualPorts
       (readThread_body 0 (world_example (Some <$> encode 30 [97]) ∅)).2)
  = Some ptyChan_zero ∧
  0 ∈ closed
        (shutdownVPorts
           (sVirtualPorts
              (readThread_body 0
                 (world_example (Some <$> encode 30 [97]) ∅)).2)).
Proof.
  destruct (unregistered_id_becomes_channel 30 0 []
              (world_example (Some <$> encode 30 [97]) ∅))
    as (H1 & _ & H3).
  - reflexivity.
  - reflexivity.
  - reflexivity.
  - split; [exact H1 | exact H3].
Defined.

(** X21.  After [exceptionHandler] has run, neither thread does any more
    input or output: however many more times their loops are entered,
    [readThread] takes nothing from the serial port, writes nothing to any
    pseudo-tty and leaves the registry alone, [writeThread] polls no
    descriptor and writes nothing to the serial port, and a payload loop
    that comes to its test forwards none of the bytes it still had to
    forward. *)
Theorem signal_stops_both_threads (signo : Z) (turns passes nbytes : nat)
    (tmp fd : Z) (buf : list Z) (w : World) :
  let w' := (exceptionHandler signo w).2 in
  terminateProcess w' = true ∧
  no_ingress w (readThread_loop turns tmp w') ∧
  no_egress w (writeThread_loop passes buf w') ∧
  no_ingress w (forward_payload nbytes fd tmp w').2.
Proof.
  cbn zeta. split; [reflexivity|]. split; [|split].
  - destruct turns as [|turns];
      cbn [readThread_loop exceptionHandler snd terminateProcess].
    + repeat split.
    + split; [reflexivity|]. split; [reflexivity|]. intros fd'.
      cbn [trace emit]. rewrite delivered_app. apply app_nil_r.
  - destruct passes as [|passes];
      cbn [writeThread_loop exceptionHandler snd terminateProcess].
    + repeat split.
    + split; [reflexivity|]. split; [reflexivity|].
      cbn [trace emit]. rewrite phys_writes_app, polled_app.
      split; apply app_nil_r.
  - destruct nbytes; cbn; repeat split.
Qed.

(** ** The serial port's attributes *)

Lemma land_lnot_same (x m : Z) : Z.land (Z.land x (Z.lnot m)) m = 0.
Proof.
  apply Z.bits_inj'. intros n Hn.
  rewrite !Z.land_spec, Z.lnot_spec, Z.bits_0 by exact Hn.
  destruct (Z.testbit x n), (Z.testbit m n); reflexivity.
Qed.

(** X22.  The attributes [configurePort] sets on the serial port: reads
    never wait (VMIN and VTIME are 0), output post-processing is off, the
    local-line and receiver-enable flags are on, hardware flow control is
    off, and the character-size field is left all zero: whatever size
    [cfmakeraw] had chosen is cleared by the last change to [c_cflag] and no
    size is put in its place. *)
Theorem configurePort_attributes_set (h : termios_h) (info : termios) :
  Z.land (Z.lor (CLOCAL h) (CREAD h)) (CSIZE h) = 0 →
  Z.land (Z.lor (CLOCAL h) (CREAD h)) (CRTSCTS h) = 0 →
  (VTIME h < length (c_cc (cfmakeraw h info)))%nat →
  (VMIN h < length (c_cc (cfmakeraw h info)))%nat →
  let r := configurePort_attributes h info in
  Z.land (c_cflag r) (CSIZE h) = 0 ∧
  Z.land (c_cflag r) (CRTSCTS h) = 0 ∧
  Z.land (c_cflag r) (Z.lor (CLOCAL h) (CREAD h))
  = Z.lor (CLOCAL h) (CREAD h) ∧
  Z.land (c_oflag r) (OPOST h) = 0 ∧
  c_cc r !! VMIN h = Some 0 ∧
  c_cc r !! VTIME h = Some 0 ∧
  c_iflag r = c_iflag (cfmakeraw h info) ∧
  c_lflag r = c_lflag (cfmakeraw h info).
Proof.
  intros Hsize Hflow Ht Hm. cbn zeta. unfold configurePort_attributes.
  cbn [c_iflag c_oflag c_cflag c_lflag c_cc].
  set (raw := cfmakeraw h info) in *.
  set (on := Z.lor (CLOCAL h) (CREAD h)) in *.
  assert (Hbits : ∀ a b, Z.land a b = 0 →
            ∀ n, 0 ≤ n → Z.testbit a n = true → Z.testbit b n = false).
  { intros a b Hab n Hn Ha.
    pose proof (f_equal (fun z => Z.testbit z n) Hab) as Hz. cbn beta in Hz.
    rewrite Z.land_spec, Z.bits_0, Ha in Hz. exact Hz. }
  repeat split.
  - apply land_lnot_same.
  - apply Z.bits_inj'. intros n Hn.
    rewrite !Z.land_spec, Z.lor_spec, Z.land_spec, !Z.lnot_spec, Z.bits_0
      by exact Hn.
    pose proof (Hbits _ _ Hflow n Hn) as Hf.
    destruct (Z.testbit on n); [rewrite Hf by reflexivity|];
      destruct (Z.testbit (c_cflag raw) n), (Z.testbit (CRTSCTS h) n),
        (Z.testbit (CSIZE h) n); reflexivity.
  - apply Z.bits_inj'. intros n Hn.
    rewrite !Z.land_spec, Z.lor_spec, Z.land_spec, !Z.lnot_spec by exact Hn.
    pose proof (Hbits _ _ Hsize n Hn) as Hs.
    destruct (Z.testbit on n); [rewrite Hs by reflexivity|];
      destruct (Z.testbit (c_cflag raw) n), (Z.testbit (CRTSCTS h) n);
      try reflexivity; destruct (Z.testbit (CSIZE h) n); reflexivity.
  - apply land_lnot_same.
  - apply list_lookup_insert_eq. rewrite length_insert. exact Hm.
  - destruct (decide (VMIN h = VTIME h)) as [Heq|Hne].
    + rewrite Heq. apply list_lookup_insert_eq. rewrite length_insert.
      exact Ht.
    + rewrite list_lookup_insert_ne by exact Hne.
      apply list_lookup_insert_eq. exact Ht.
Qed.

(** The values of Linux: CSIZE 0x30 (with CS8 = 0x30 and CS5 = 0), CLOCAL
    0x800, CREAD 0x80, CRTSCTS 0x80000000, OPOST 1, VTIME 5, VMIN 6; and a
    [cfmakeraw] that selects eight-bit characters. *)
Lemma configurePort_attributes_set_witness :
  Z.land
    (c_cflag
       (configurePort_attributes
          (mkTermiosH 2147483648 2048 128 48 1 5 6
             (fun t => mkTermios 0 (Z.land (c_oflag t) (Z.lnot 1))
                         (Z.lor (Z.land (c_cflag t) (Z.lnot 304)) 48)
                         0 (c_cc t)))
          (mkTermios 1280 5 3261 35387 (replicate 32 1))))
    48 = 0.
Proof.
  destruct (configurePort_attributes_set
              (mkTermiosH 2147483648 2048 128 48 1 5 6
                 (fun t => mkTermios 0 (Z.land (c_oflag t) (Z.lnot 1))
                             (Z.lor (Z.land (c_cflag t) (Z.lnot 304)) 48)
                             0 (c_cc t)))
              (mkTermios 1280 5 3261 35387 (replicate 32 1)))
    as (H & _).
  - reflexivity.
  - reflexivity.
  - cbn. lia.
  - cbn. lia.
  - exact H.
Defined.
